(** * multi_drone_inspection: Bezier spline smoother and RRT / NBV service handlers

    Shallow embedding of

      - [src/src/bezier_spline.cpp]           (class [mdi::BezierSpline])
      - [src/mdi/src/nodes/rrt_service.cpp]   (the two service handlers and
                                               [waypoints_to_geometry_msgs_points])

    Numbers.  The C++ code computes with [float] / [double].  The embedding
    idealises them as exact rationals in canonical form ([Qc]), so that
    every definition below evaluates.  The values the statements below
    exhibit (curve points at t = 0, 1/2 and 1, small integers) are computed
    exactly by the float code as well.
    Conversions to [int] truncate toward zero, as in C++.  The square root
    used by [Eigen]'s [norm()] is not rational; it is a parameter of the
    development.

    Range.  An [int] is embedded as an unbounded [Z] and a float that
    holds a whole number as that number.  This is what the C++ code
    computes as long as every [int] stays below [INT_MAX] and every whole
    number that passes through a float stays within [FLOAT_INT_MAX] = 2^24;
    each definition says where it relies on this, and the general
    statements carry the bound they need as a hypothesis. *)

From Stdlib Require Import List ZArith QArith Qcanon Qround Lia Bool Sorted.
Import ListNotations.

Set Implicit Arguments.

(* ------------------------------------------------------------------------- *)
(** ** Numeric layer *)

Module Num.

Local Open Scope Qc_scope.

(** [int -> float] conversion. *)
Definition Z2Qc (z : Z) : Qc := Q2Qc (inject_Z z).

(** The largest [int], and the largest whole number up to which every
    whole number is a single-precision float. *)
Definition INT_MAX : Z := 2147483647.
Definition FLOAT_INT_MAX : Z := 16777216.

(** [float -> int] conversion, [(int)x]: truncation toward zero. *)
Definition Qctrunc (q : Qc) : Z := Z.quot (Qnum (this q)) (Zpos (Qden (this q))).

(** Comparisons of the C++ code, as booleans. *)
Definition Qcltb (a b : Qc) : bool :=
  match a ?= b with Lt => true | _ => false end.
Definition Qcleb (a b : Qc) : bool :=
  match a ?= b with Gt => false | _ => true end.
Definition Qceqb (a b : Qc) : bool :=
  match a ?= b with Eq => true | _ => false end.

(** [abs] on a float. *)
Definition Qcabs (a : Qc) : Qc := if Qcltb a 0 then - a else a.

Lemma Qcltb_lt a b : Qcltb a b = true <-> a < b.
Proof.
  unfold Qcltb. rewrite Qclt_alt.
  destruct (a ?= b); split; congruence.
Qed.

Lemma Qcleb_le a b : Qcleb a b = true <-> a <= b.
Proof.
  unfold Qcleb. rewrite Qcle_alt.
  destruct (a ?= b); split; congruence.
Qed.

Lemma Qceqb_eq a b : Qceqb a b = true <-> a = b.
Proof.
  unfold Qceqb. rewrite Qceq_alt.
  destruct (a ?= b); split; congruence.
Qed.

Lemma Qcleb_false_lt a b : Qcleb a b = false <-> b < a.
Proof.
  split; intros H.
  - apply Qcnot_le_lt. intros L. apply Qcleb_le in L. congruence.
  - destruct (Qcleb a b) eqn:E; [|reflexivity].
    apply Qcleb_le in E. exfalso. eapply Qclt_not_le; eauto.
Qed.

Lemma Qcltb_false_le a b : Qcltb a b = false <-> b <= a.
Proof.
  split; intros H.
  - apply Qcnot_lt_le. intros L. apply Qcltb_lt in L. congruence.
  - destruct (Qcltb a b) eqn:E; [|reflexivity].
    apply Qcltb_lt in E. exfalso. eapply Qcle_not_lt; eauto.
Qed.

Lemma Z2Qc_0 : Z2Qc 0 = 0.
Proof. apply Qc_is_canon. reflexivity. Qed.

Lemma Z2Qc_1 : Z2Qc 1 = 1.
Proof. apply Qc_is_canon. reflexivity. Qed.

Lemma Qcpower_0_S n : 0 ^ (S n) = 0.
Proof. simpl. ring. Qed.

End Num.
Import Num.

(* ------------------------------------------------------------------------- *)
(** ** Vectors shared by both translation units *)

Module Eigen.

Local Open Scope Qc_scope.

(** [Eigen::Vector3f]. *)
Record Vector3f := mkV { vx : Qc; vy : Qc; vz : Qc }.

Definition vzero : Vector3f := mkV 0 0 0.
Definition vadd (a b : Vector3f) : Vector3f :=
  mkV (vx a + vx b) (vy a + vy b) (vz a + vz b).
Definition vsub (a b : Vector3f) : Vector3f :=
  mkV (vx a - vx b) (vy a - vy b) (vz a - vz b).
Definition vscale (w : Qc) (a : Vector3f) : Vector3f :=
  mkV (w * vx a) (w * vy a) (w * vz a).
Definition squaredNorm (a : Vector3f) : Qc :=
  vx a * vx a + vy a * vy a + vz a * vz a.

End Eigen.
Import Eigen.

(* ------------------------------------------------------------------------- *)
(** ** [mdi::BezierSpline]  (src/src/bezier_spline.cpp) *)

Module Bezier.

Local Open Scope Qc_scope.

(** What a member function can do besides returning: a failed [assert]
    aborts the process; [operator[]] outside a [std::vector] is undefined
    behaviour, which the embedding reports instead of guessing a value. *)
Inductive outcome (A : Type) : Type :=
| Ok (a : A)
| AssertFailed
| OutOfBounds.
Arguments AssertFailed {A}.
Arguments OutOfBounds {A}.

Definition bind {A B} (m : outcome A) (k : A -> outcome B) : outcome B :=
  match m with
  | Ok a => k a
  | AssertFailed => AssertFailed
  | OutOfBounds => OutOfBounds
  end.

Notation "x <- m ;; k" := (bind m (fun x => k))
  (at level 61, m at next level, right associativity).

(** [v[i]] for an [int] (or [float]) index [i]: a negative index wraps to a
    huge [size_t] and is out of range like any index past the end. *)
Definition at_ {A} (v : list A) (i : Z) : outcome A :=
  if (i <? 0)%Z then OutOfBounds
  else match nth_error v (Z.to_nat i) with
       | Some a => Ok a
       | None => OutOfBounds
       end.

(** Modelled from the spec: [mdi::utils::binomial_coefficient] is declared
    outside src/; the spec calls it binomial(n,i), the binomial
    coefficient "n choose i". *)
Fixpoint binomial_coefficient (n k : nat) : Z :=
  match n, k with
  | _, O => 1
  | O, S _ => 0
  | S n', S k' => binomial_coefficient n' k' + binomial_coefficient n' k
  end.

(** The data members of the class.  [size] is the [int] member set from
    [points.size()]. *)
Record BezierSpline := mkSpline {
  input_points : list Vector3f;
  resolution : Z;
  size : nat;
  binomial_lut : list Z;
  spline_points : list Vector3f;
  distance_lut : list Qc
}.

(** A default-constructed object: every vector member is empty. *)
Definition empty_spline : BezierSpline := mkSpline [] 0 0 [] [] [].

(** [BezierSpline::f], lines 38-47.
<<
    auto spline_point = Vector3f(0, 0, 0);
    for (int i = 0; i < this->size; i++) {
        auto w = binomial_lut[i] * pow(t, i) * pow(1 - t, this->size - i);
        spline_point += w * this->input_points[i];
    }
>>
    [pow(x, 0)] is 1 for every [x], as [Qcpower].  The two table reads are
    in range whenever the assertion of [generate_spline] has passed
    (lemma [generate_spline_sizes]); [nth] with a default keeps [f] total. *)
Definition bezier_term (s : BezierSpline) (t : Qc) (i : nat) : Vector3f :=
  let w := Z2Qc (nth i (binomial_lut s) 0%Z) * t ^ i * (1 - t) ^ (size s - i) in
  vscale w (nth i (input_points s) vzero).

Definition f (s : BezierSpline) (t : Qc) : Vector3f :=
  fold_left (fun spline_point i => vadd spline_point (bezier_term s t i))
            (seq 0 (size s)) vzero.

(** [BezierSpline::generate_binomial_lut], lines 70-74: [push_back] onto the
    table as it is; nothing clears it. *)
Definition generate_binomial_lut (s : BezierSpline) : BezierSpline :=
  mkSpline (input_points s) (resolution s) (size s)
           (binomial_lut s ++ map (fun i => binomial_coefficient (size s) i) (seq 0 (size s)))
           (spline_points s) (distance_lut s).

Section WithSqrt.

(** Single-precision square root behind [Eigen]'s [norm()]. *)
Variable sqrtf : Qc -> Qc.

Definition norm (a : Vector3f) : Qc := sqrtf (squaredNorm a).

(** [BezierSpline::generate_distance_lut], lines 52-65.
<<
    auto arc_length_sum = 0;
    this->distance_lut.push_back(arc_length_sum);
    for (int t = 1; t < spline_points.size(); t++) {
        auto diff = spline_points[t - 1] - spline_points[t];
        arc_length_sum += diff.norm();
        this->distance_lut.push_back(arc_length_sum);
    }
>>
    [auto arc_length_sum = 0] makes the accumulator an [int]: each [+=]
    converts the float sum back to [int].  The loop state is the pair of the
    accumulator and the table.  The accumulator is an unbounded [Z] here:
    the embedding follows the code as long as the sums stay within
    [FLOAT_INT_MAX] (beyond [INT_MAX] the conversion to [int] is
    undefined). *)
Definition distance_step (pts : list Vector3f) (st : Z * list Qc) (t : nat)
  : Z * list Qc :=
  let '(arc_length_sum, lut) := st in
  let diff := vsub (nth (t - 1) pts vzero) (nth t pts vzero) in
  let arc_length_sum' := Qctrunc (Z2Qc arc_length_sum + norm diff) in
  (arc_length_sum', lut ++ [Z2Qc arc_length_sum']).

Definition generate_distance_lut (s : BezierSpline) : BezierSpline :=
  let pts := spline_points s in
  let st := fold_left (distance_step pts) (seq 1 (length pts - 1))
                      (0%Z, distance_lut s ++ [Z2Qc 0]) in
  mkSpline (input_points s) (resolution s) (size s) (binomial_lut s)
           (spline_points s) (snd st).

(** [BezierSpline::generate_spline], lines 17-33.
<<
    this->input_points = points;
    this->resolution = resolution;
    this->size = points.size();
    if (binomial_lut.size() != this->size) { this->generate_binomial_lut(); }
    assert(points.size() == binomial_lut.size());
    this->generate_distance_lut();
    for (int t = 0; t <= resolution; t += 1) {
        auto time = (float)t / (float)resolution;
        spline_points.push_back(f(time));
    }
>>
    The loop runs for t = 0 .. resolution, that is [resolution + 1] times
    (not at all when [resolution < 0]).  At [resolution = 0] the C++ quotient
    0/0 is NaN, which [Qc] cannot express ([0 / 0 = 0] there); no statement
    below depends on the sample values at resolution 0.  At
    [resolution = INT_MAX] the test [t <= resolution] never fails and the
    increment overflows: the embedding follows the code for
    [resolution < INT_MAX] only. *)
Definition sample_times (resolution : Z) : list Qc :=
  map (fun t => Z2Qc (Z.of_nat t) / Z2Qc resolution)
      (seq 0 (Z.to_nat (resolution + 1))).

Definition generate_spline (s : BezierSpline) (points : list Vector3f)
           (resolution : Z) : outcome BezierSpline :=
  let s1 := mkSpline points resolution (length points)
                     (binomial_lut s) (spline_points s) (distance_lut s) in
  let s2 := if Nat.eqb (length (binomial_lut s1)) (size s1)
            then s1 else generate_binomial_lut s1 in
  if negb (Nat.eqb (length points) (length (binomial_lut s2))) then AssertFailed
  else
    let s3 := generate_distance_lut s2 in
    Ok (mkSpline (input_points s3) (Bezier.resolution s3) (size s3) (binomial_lut s3)
                 (spline_points s3 ++ map (f s3) (sample_times resolution))
                 (distance_lut s3)).

(** The constructor, lines 9-12: [generate_spline] on a fresh object. *)
Definition construct (points : list Vector3f) (resolution : Z)
  : outcome BezierSpline :=
  generate_spline empty_spline points resolution.

End WithSqrt.

(** [BezierSpline::get_point_at_time], lines 78-81.
<<
    assert(time <= 1.0 && time >= 0);
    return this->spline_points[(int)(resolution * time)];
>>
    The product is a float product in the code and the exact product here.
    The two give the same index when the exact product is a float, in
    particular when it is a whole number up to [FLOAT_INT_MAX]; otherwise
    the rounded product can reach the next whole number. *)
Definition get_point_at_time (s : BezierSpline) (time : Qc) : outcome Vector3f :=
  if negb (Qcleb time 1 && Qcleb 0 time) then AssertFailed
  else at_ (spline_points s) (Qctrunc (Z2Qc (resolution s) * time)).

(** [BezierSpline::get_time_idx], lines 115-129.
<<
    auto found_t_idx = 0;
    for (int t_idx = 0; t_idx < this->resolution; ++t_idx) {
        if (this->distance_lut[t_idx] > distance) {
            if (abs(distance_lut[t_idx] - distance) < abs(distance_lut[t_idx - 1] - distance)) {
                found_t_idx = t_idx;
            } else {
                found_t_idx = t_idx - 1;
            }
            break;
        }
        found_t_idx = t_idx;
    }
    return found_t_idx;
>>
    The loop is a recursion over the remaining values of [t_idx]; [break]
    returns at once.  [abs] is taken as the absolute value of a float.  The
    function returns [float]: the index comes back unchanged as long as it
    is at most [FLOAT_INT_MAX], which the embedding takes for granted. *)
Fixpoint time_idx_loop (lut : list Qc) (distance : Qc) (t_idxs : list nat)
         (found_t_idx : Z) : outcome Z :=
  match t_idxs with
  | [] => Ok found_t_idx
  | n :: rest =>
      let t_idx := Z.of_nat n in
      here <- at_ lut t_idx ;;
      if Qcltb distance here then
        before <- at_ lut (t_idx - 1) ;;
        if Qcltb (Qcabs (here - distance)) (Qcabs (before - distance))
        then Ok t_idx
        else Ok (t_idx - 1)%Z
      else time_idx_loop lut distance rest t_idx
  end.

Definition get_time_idx (s : BezierSpline) (distance : Qc) : outcome Z :=
  time_idx_loop (distance_lut s) distance (seq 0 (Z.to_nat (resolution s))) 0.

(** [BezierSpline::get_point_at_distance], lines 85-109.
<<
    auto t_idx = this->get_time_idx(distance);
    if (t_idx == this->resolution) { return this->spline_points[t_idx]; }
    auto distance_diff = this->distance_lut[t_idx + 1] - this->distance_lut[t_idx];
    auto distance_diff_given = this->distance_lut[t_idx + 1] - distance;
    auto diff_frac = distance_diff_given / distance_diff;
    assert(diff_frac >= 0 && diff_frac <= 1);
    auto t = ((float)t_idx + diff_frac) / resolution;
    return this->f(t);
>>
    When [distance_diff] is 0 the float quotient is an infinity or NaN, and
    every one of them fails the assertion; the embedding says so
    explicitly, since [Qc] has neither. *)
Definition get_point_at_distance (s : BezierSpline) (distance : Qc)
  : outcome Vector3f :=
  t_idx <- get_time_idx s distance ;;
  if Z.eqb t_idx (resolution s) then at_ (spline_points s) t_idx
  else
    upper <- at_ (distance_lut s) (t_idx + 1) ;;
    lower <- at_ (distance_lut s) t_idx ;;
    let distance_diff := upper - lower in
    let distance_diff_given := upper - distance in
    if Qceqb distance_diff 0 then AssertFailed
    else
      let diff_frac := distance_diff_given / distance_diff in
      if negb (Qcleb 0 diff_frac && Qcleb diff_frac 1) then AssertFailed
      else
        let t := (Z2Qc t_idx + diff_frac) / Z2Qc (resolution s) in
        Ok (f s t).

(** [BezierSpline::get_spline_points], line 133. *)
Definition get_spline_points (s : BezierSpline) : list Vector3f := spline_points s.

(** *** Reference definitions, following the words of the specification *)

(** "for n+1 points, point(t) = sum over i of
    binomial(n,i) * t^i * (1-t)^(n-i) * P_i". *)
Definition bernstein_sum (points : list Vector3f) (t : Qc) : Vector3f :=
  let n := (length points - 1)%nat in
  fold_left
    (fun acc i =>
       vadd acc (vscale (Z2Qc (binomial_coefficient n i) * t ^ i * (1 - t) ^ (n - i))
                        (nth i points vzero)))
    (seq 0 (length points)) vzero.

(** *** Concrete data used by the statements below *)

(** A rational from numerator and positive denominator. *)
Definition frac (a : Z) (b : positive) : Qc := Q2Qc (Qmake a b).

(** Scenario A of the specification: control points (0,0,0), (1,2,0),
    (2,0,0). *)
Definition scenario_A : list Vector3f :=
  [mkV 0 0 0; mkV 1 (Z2Qc 2) 0; mkV (Z2Qc 2) 0 0].

(** Two control points, for a first build that is later rebuilt. *)
Definition two_points : list Vector3f := [mkV 0 0 0; mkV 1 1 0].

(** An integer square root, for the closed statements that must name some
    square root; [construct] never calls it. *)
Definition isqrtf (x : Qc) : Qc := Z2Qc (Z.sqrt (Qctrunc x)).

(** Coordinates as plain rationals, to compare computed vectors. *)
Definition coords (v : Vector3f) : Q * Q * Q :=
  (this (vx v), this (vy v), this (vz v)).

Definition omap {A B} (g : A -> B) (o : outcome A) : outcome B :=
  match o with
  | Ok a => Ok (g a)
  | AssertFailed => AssertFailed
  | OutOfBounds => OutOfBounds
  end.

(** The state a fresh object is in after [generate_spline]: see
    [construct_state]. *)
Definition built_core (points : list Vector3f) (resolution : Z) : BezierSpline :=
  mkSpline points resolution (length points)
           (map (fun i => binomial_coefficient (length points) i)
                (seq 0 (length points)))
           [] [Z2Qc 0].

Definition built (points : list Vector3f) (resolution : Z) : BezierSpline :=
  mkSpline points resolution (length points)
           (binomial_lut (built_core points resolution))
           (map (f (built_core points resolution)) (sample_times resolution))
           [Z2Qc 0].

(* ------------------------------------------------------------------------- *)
(** *** Facts about vectors and numbers *)

Lemma coords_inj a b : coords a = coords b -> a = b.
Proof.
  destruct a as [ax ay az], b as [bx b_y bz]; unfold coords; simpl.
  intros H. injection H as Hx Hy Hz.
  apply Qc_decomp in Hx, Hy, Hz. congruence.
Qed.

Lemma outcome_coords_eq (o : outcome Vector3f) v :
  omap coords o = Ok (coords v) -> o = Ok v.
Proof.
  destruct o; simpl; try discriminate.
  intros H. f_equal. apply coords_inj. congruence.
Qed.

Lemma vadd_zero_r a : vadd a vzero = a.
Proof.
  destruct a; unfold vadd, vzero; simpl.
  rewrite !Qcplus_0_r. reflexivity.
Qed.

Lemma vadd_zero_l a : vadd vzero a = a.
Proof.
  destruct a; unfold vadd, vzero; simpl.
  rewrite !Qcplus_0_l. reflexivity.
Qed.

Lemma vscale_zero a : vscale 0 a = vzero.
Proof.
  destruct a; unfold vscale, vzero; simpl.
  rewrite !Qcmult_0_l. reflexivity.
Qed.

Lemma vscale_one a : vscale 1 a = a.
Proof.
  destruct a; unfold vscale; simpl.
  rewrite !Qcmult_1_l. reflexivity.
Qed.

Lemma Qred_inject_Z z : Qred (inject_Z z) = inject_Z z.
Proof.
  apply Qred_identity. simpl. apply Z.gcd_1_r.
Qed.

Lemma Qctrunc_Z2Qc z : Qctrunc (Z2Qc z) = z.
Proof.
  unfold Qctrunc, Z2Qc, Q2Qc. cbn [this]. rewrite Qred_inject_Z.
  cbn [inject_Z Qnum Qden]. apply Z.quot_1_r.
Qed.

Lemma Z2Qc_neq_0 z : z <> 0%Z -> Z2Qc z <> 0.
Proof.
  intros Hz H. apply Hz.
  rewrite <- (Qctrunc_Z2Qc z), H. reflexivity.
Qed.

Lemma Qc_one_minus_one : 1 - 1 = 0.
Proof. ring. Qed.

Lemma Qc_one_minus_zero : 1 - 0 = 1.
Proof. ring. Qed.

(** Summing terms that all vanish leaves the accumulator as it is. *)
Lemma fold_vadd_zero (g : nat -> Vector3f) (l : list nat) (acc : Vector3f) :
  (forall i, In i l -> g i = vzero) ->
  fold_left (fun a i => vadd a (g i)) l acc = acc.
Proof.
  revert acc. induction l as [|i l IH]; intros acc H; simpl; [reflexivity|].
  rewrite (H i (or_introl eq_refl)), vadd_zero_r.
  apply IH. intros j Hj. apply H. right. exact Hj.
Qed.

(* ------------------------------------------------------------------------- *)
(** *** The curve at the ends of the parameter range *)

(** At t = 1 every term carries the factor (1 - 1)^(size - i) with
    i < size, so the sum is the origin whatever the control points are. *)
Lemma f_at_one s : f s 1 = vzero.
Proof.
  unfold f. apply fold_vadd_zero. intros i Hi.
  apply in_seq in Hi. unfold bezier_term.
  replace (size s - i)%nat with (S (size s - i - 1)) by lia.
  rewrite Qc_one_minus_one, Qcpower_0_S, Qcmult_0_r.
  apply vscale_zero.
Qed.

(** At t = 0 only the term i = 0 survives. *)
Lemma f_at_zero s :
  (0 < size s)%nat -> nth 0 (binomial_lut s) 0%Z = 1%Z ->
  f s 0 = nth 0 (input_points s) vzero.
Proof.
  intros Hsz Hb. unfold f.
  destruct (size s) as [|n] eqn:E; [lia|].
  cbn [seq fold_left].
  rewrite fold_vadd_zero.
  - rewrite vadd_zero_l. unfold bezier_term.
    rewrite Hb, Z2Qc_1, Qc_one_minus_zero, Qcpower_1.
    cbn [Qcpower]. rewrite !Qcmult_1_l. apply vscale_one.
  - intros i Hi. apply in_seq in Hi. unfold bezier_term.
    destruct i as [|i]; [lia|].
    rewrite Qcpower_0_S, Qcmult_0_r, Qcmult_0_l.
    apply vscale_zero.
Qed.

Lemma sample_times_length resolution :
  length (sample_times resolution) = Z.to_nat (resolution + 1).
Proof. unfold sample_times. rewrite length_map, length_seq. reflexivity. Qed.

Lemma sample_times_nth resolution k :
  (k < Z.to_nat (resolution + 1))%nat ->
  nth_error (sample_times resolution) k
  = Some (Z2Qc (Z.of_nat k) / Z2Qc resolution).
Proof.
  intros Hk. unfold sample_times.
  rewrite nth_error_map, nth_error_seq.
  apply Nat.ltb_lt in Hk. rewrite Hk. reflexivity.
Qed.

Lemma built_sample resolution points k :
  (k < Z.to_nat (resolution + 1))%nat ->
  at_ (spline_points (built points resolution)) (Z.of_nat k)
  = Ok (f (built_core points resolution) (Z2Qc (Z.of_nat k) / Z2Qc resolution)).
Proof.
  intros Hk. unfold at_.
  destruct (Z.ltb_spec (Z.of_nat k) 0); [lia|].
  rewrite Nat2Z.id. cbn [built spline_points].
  rewrite nth_error_map, sample_times_nth by exact Hk. reflexivity.
Qed.

Section Construction.

Variable sqrtf : Qc -> Qc.

(** Construction always succeeds and leaves exactly the state [built]. *)
Lemma construct_state points resolution :
  construct sqrtf points resolution = Ok (built points resolution).
Proof.
  unfold construct, generate_spline.
  cbn [binomial_lut spline_points distance_lut size empty_spline length].
  destruct points as [|p points].
  - reflexivity.
  - cbn [Nat.eqb length].
    unfold generate_binomial_lut.
    cbn [binomial_lut size input_points Bezier.resolution spline_points distance_lut app].
    rewrite length_map, length_seq, Nat.eqb_refl.
    reflexivity.
Qed.

(** After a successful [generate_spline] the tables read by [f] have the
    size [f] assumes. *)
Lemma generate_spline_sizes s points resolution s' :
  generate_spline sqrtf s points resolution = Ok s' ->
  size s' = length (input_points s') /\ length (binomial_lut s') = size s'.
Proof.
  unfold generate_spline.
  cbn [binomial_lut size].
  destruct (Nat.eqb (length (binomial_lut s)) (length points)) eqn:E1.
  - cbn [binomial_lut]. rewrite Nat.eqb_sym, E1. cbn [negb].
    intros H. injection H as <-. cbn.
    apply Nat.eqb_eq in E1. split; [reflexivity | exact E1].
  - destruct (negb _) eqn:E2; [discriminate|].
    intros H. injection H as <-. cbn.
    apply negb_false_iff, Nat.eqb_eq in E2. cbn in E2.
    split; [reflexivity | symmetry; exact E2].
Qed.

(** [get_point_at_time(0)] is the first control point. *)
Lemma get_point_at_time_0_first p rest resolution :
  (0 < resolution)%Z ->
  get_point_at_time (built (p :: rest) resolution) 0 = Ok p.
Proof.
  intros Hres. unfold get_point_at_time.
  replace (Qcleb 0 1 && Qcleb 0 0) with true by reflexivity. cbn [negb].
  rewrite Qcmult_0_r.
  change (Qctrunc 0) with (Z.of_nat 0).
  rewrite built_sample by lia.
  change (Z.of_nat 0) with 0%Z. rewrite Z2Qc_0.
  unfold Qcdiv. rewrite Qcmult_0_l.
  rewrite f_at_zero; cbn; try lia; reflexivity.
Qed.

(** [get_point_at_time(1)] is the origin. *)
Lemma get_point_at_time_1_origin points resolution :
  (0 < resolution)%Z ->
  get_point_at_time (built points resolution) 1 = Ok vzero.
Proof.
  intros Hres. unfold get_point_at_time.
  replace (Qcleb 1 1 && Qcleb 0 1) with true by reflexivity. cbn [negb].
  rewrite Qcmult_1_r. cbn [Bezier.resolution built].
  rewrite Qctrunc_Z2Qc.
  assert (Hk : (Z.to_nat resolution < Z.to_nat (resolution + 1))%nat) by lia.
  pose proof (built_sample resolution points Hk) as Hs.
  rewrite Z2Nat.id in Hs by lia. rewrite Hs.
  unfold Qcdiv. rewrite Qcmult_inv_r by (apply Z2Qc_neq_0; lia).
  rewrite f_at_one. reflexivity.
Qed.

End Construction.

(* ------------------------------------------------------------------------- *)
(** *** The distance table and the lookup by distance *)

(** Whatever the table holds, an index returned by the loop of
    [get_time_idx] is the start value or comes from a visited [t_idx]:
    it is [t_idx] or [t_idx - 1]. *)
Lemma time_idx_loop_range lut distance l found i :
  time_idx_loop lut distance l found = Ok i ->
  (l = [] /\ i = found) \/
  (exists n, In n l /\ (i = Z.of_nat n \/ i = (Z.of_nat n - 1)%Z)).
Proof.
  revert found. induction l as [|n l IH]; intros found H; cbn in H.
  - left. split; [reflexivity|]. congruence.
  - right. destruct (at_ lut (Z.of_nat n)) as [here| |]; cbn in H; try discriminate.
    destruct (Qcltb distance here).
    + destruct (at_ lut (Z.of_nat n - 1)) as [before| |]; cbn in H; try discriminate.
      exists n. split; [left; reflexivity|].
      destruct (Qcltb _ _); injection H as <-; auto.
    + apply IH in H. destruct H as [[-> ->] | [m [Hm Hi]]].
      * exists n. split; [left; reflexivity | left; reflexivity].
      * exists m. split; [right; exact Hm | exact Hi].
Qed.

(** So [get_time_idx] never returns [resolution] when [resolution > 0]:
    the test [t_idx == this->resolution] of [get_point_at_distance] cannot
    succeed then. *)
Lemma get_time_idx_lt_resolution s distance i :
  (0 < resolution s)%Z ->
  get_time_idx s distance = Ok i -> (i < resolution s)%Z.
Proof.
  intros Hres H. unfold get_time_idx in H.
  apply time_idx_loop_range in H.
  destruct H as [[Hnil _] | [n [Hn Hi]]].
  - destruct (Z.to_nat (resolution s)) eqn:E; [lia | discriminate].
  - apply in_seq in Hn. lia.
Qed.

(** A distance below the first table entry makes the first iteration read
    [distance_lut[-1]]. *)
Lemma get_time_idx_below_first s distance first rest :
  (0 < resolution s)%Z ->
  distance_lut s = first :: rest -> distance < first ->
  get_time_idx s distance = OutOfBounds.
Proof.
  intros Hres Hlut Hlt. unfold get_time_idx. rewrite Hlut.
  destruct (Z.to_nat (resolution s)) as [|k] eqn:E; [lia|].
  cbn. apply Qcltb_lt in Hlt. rewrite Hlt. reflexivity.
Qed.

Lemma built_distance_lut points resolution :
  distance_lut (built points resolution) = [Z2Qc 0]
  /\ length (spline_points (built points resolution)) = Z.to_nat (resolution + 1).
Proof.
  split; [reflexivity|].
  cbn [built spline_points]. rewrite length_map. apply sample_times_length.
Qed.

(** On a freshly constructed spline with [resolution >= 1] every lookup by
    distance reads outside the one-entry table. *)
Lemma get_point_at_distance_built points resolution distance :
  (1 <= resolution)%Z ->
  get_point_at_distance (built points resolution) distance = OutOfBounds.
Proof.
  intros Hres. unfold get_point_at_distance, get_time_idx.
  cbn [built distance_lut Bezier.resolution].
  destruct (Z.to_nat resolution) as [|k] eqn:E; [lia|].
  cbn [seq time_idx_loop]. cbn [Z.of_nat at_ Z.ltb Z.compare Z.to_nat nth_error bind].
  destruct (Qcltb distance (Z2Qc 0)); [reflexivity|].
  destruct k as [|k].
  - cbn [seq time_idx_loop bind].
    destruct (Z.eqb_spec 0 resolution); [lia|]. reflexivity.
  - reflexivity.
Qed.

(* ------------------------------------------------------------------------- *)
(** *** The binomial table across rebuilds *)

Lemma generate_binomial_lut_length s :
  length (binomial_lut (generate_binomial_lut s))
  = (length (binomial_lut s) + size s)%nat.
Proof.
  unfold generate_binomial_lut. cbn [binomial_lut].
  rewrite length_app, length_map, length_seq. reflexivity.
Qed.

Section Rebuild.

Variable sqrtf : Qc -> Qc.

(** A rebuild with the same number of control points keeps the table. *)
Lemma generate_spline_same_count s points resolution :
  length (binomial_lut s) = length points ->
  exists s', generate_spline sqrtf s points resolution = Ok s'
             /\ binomial_lut s' = binomial_lut s.
Proof.
  intros H. unfold generate_spline. cbn [binomial_lut size].
  rewrite H, Nat.eqb_refl. cbn [binomial_lut].
  rewrite H, Nat.eqb_refl. cbn [negb].
  eexists. split; reflexivity.
Qed.

(** A rebuild with another number of control points, on a table that is
    not empty, appends to the old table and stops at the assertion. *)
Lemma generate_spline_other_count s points resolution :
  length (binomial_lut s) <> length points ->
  length (binomial_lut s) <> 0%nat ->
  generate_spline sqrtf s points resolution = AssertFailed.
Proof.
  intros Hne Hpos. unfold generate_spline. cbn [binomial_lut size].
  destruct (Nat.eqb_spec (length (binomial_lut s)) (length points)); [contradiction|].
  rewrite generate_binomial_lut_length. cbn [binomial_lut size].
  destruct (Nat.eqb_spec (length points) (length (binomial_lut s) + length points));
    [lia | reflexivity].
Qed.

End Rebuild.

(* ------------------------------------------------------------------------- *)
(** *** The code against the Bernstein sum, whatever the binomial table *)

(** On the three control points of scenario A the sum computed by [f] at
    t = 1 is the origin for every content of the binomial table, while the
    Bernstein sum of the specification is the last control point.  The
    difference therefore does not rest on [binomial_coefficient]. *)
Lemma f_is_not_bernstein_sum s :
  input_points s = scenario_A ->
  f s 1 = vzero /\ bernstein_sum (input_points s) 1 = mkV (Z2Qc 2) 0 0.
Proof.
  intros Hpts. split; [apply f_at_one|].
  rewrite Hpts. apply coords_inj. vm_compute. reflexivity.
Qed.

(* ------------------------------------------------------------------------- *)
(** *** The claims about the spline *)

(** C1.  Scenario A: control points (0,0,0), (1,2,0), (2,0,0) and resolution
    10.  The specification expects [get_point_at_time(0.5)] to be the
    Bernstein sum 0.25*P0 + 0.5*P1 + 0.25*P2 = (1,1,0).  The code returns
    (9/8, 3/4, 0): [f] uses the number of control points where the Bezier
    formula has the degree, both in the binomial coefficient and in the
    exponent of (1 - t). *)
Theorem scenario_A_point_at_half (sqrtf : Qc -> Qc) :
  bind (construct sqrtf scenario_A 10) (fun s => get_point_at_time s (frac 1 2))
  = Ok (mkV (frac 9 8) (frac 3 4) 0)
  /\ bernstein_sum scenario_A (frac 1 2) = mkV 1 1 0
  /\ mkV (frac 9 8) (frac 3 4) 0 <> mkV 1 1 0.
Proof.
  rewrite construct_state. cbn [bind].
  split; [|split].
  - apply outcome_coords_eq. vm_compute. reflexivity.
  - apply coords_inj. vm_compute. reflexivity.
  - intros H. apply (f_equal coords) in H. vm_compute in H. discriminate.
Qed.

(** C2.  On scenario A, [get_point_at_time(0)] is the first control point,
    but [get_point_at_time(1)] is the origin and not the last control point
    (2,0,0). *)
Theorem scenario_A_point_at_one (sqrtf : Qc -> Qc) :
  bind (construct sqrtf scenario_A 10) (fun s => get_point_at_time s 0)
  = Ok (hd vzero scenario_A)
  /\ bind (construct sqrtf scenario_A 10) (fun s => get_point_at_time s 1)
     = Ok vzero
  /\ last scenario_A vzero = mkV (Z2Qc 2) 0 0
  /\ mkV (Z2Qc 2) 0 0 <> vzero.
Proof.
  rewrite construct_state. cbn [bind].
  split; [|split; [|split]].
  - apply get_point_at_time_0_first. lia.
  - apply get_point_at_time_1_origin. lia.
  - reflexivity.
  - intros H. apply (f_equal coords) in H. vm_compute in H. discriminate.
Qed.

(** C3.  After the construction of scenario A with resolution 10 there are
    11 sampled points, but the arc-length table has the single entry 0:
    [generate_spline] builds the table before it samples the curve. *)
Theorem scenario_A_distance_lut (sqrtf : Qc -> Qc) :
  exists s,
    construct sqrtf scenario_A 10 = Ok s
    /\ distance_lut s = [Z2Qc 0]
    /\ length (distance_lut s) = 1%nat
    /\ length (spline_points s) = 11%nat.
Proof.
  exists (built scenario_A 10). rewrite construct_state.
  repeat split.
Qed.

(** C4.  On the constructed scenario A no lookup by distance returns a
    point: for every distance the code reads outside the arc-length
    table. *)
Theorem scenario_A_point_at_distance (sqrtf : Qc -> Qc) (distance : Qc) :
  bind (construct sqrtf scenario_A 10)
       (fun s => get_point_at_distance s distance)
  = OutOfBounds.
Proof.
  rewrite construct_state. cbn [bind].
  apply get_point_at_distance_built. lia.
Qed.

(** C8, counterexample.  Construction with no control point, and
    construction with a negative resolution, both complete: the first with
    11 samples at the origin, the second with no sample at all. *)
Lemma construct_accepts_invalid_input :
  construct isqrtf [] 10 = Ok (built [] 10)
  /\ spline_points (built [] 10) = repeat vzero 11
  /\ construct isqrtf scenario_A (-1) = Ok (built scenario_A (-1))
  /\ spline_points (built scenario_A (-1)) = [].
Proof.
  rewrite !construct_state. repeat split.
Qed.

(** C8, as amended.  Construction does not require a control point or a
    positive resolution and fails with no error when one is missing:
    nothing is validated.  With no control point, or with a resolution of 0
    or less (within the [int] range below [INT_MAX]), it completes, stores
    the arguments as given and samples the curve [resolution + 1] times
    (not at all for a negative resolution); without control points every
    sample is the origin. *)
Theorem construct_does_not_validate (sqrtf : Qc -> Qc) (points : list Vector3f)
        (resolution : Z) :
  (- INT_MAX - 1 <= resolution < INT_MAX)%Z ->
  points = [] \/ (resolution <= 0)%Z ->
  exists s,
    construct sqrtf points resolution = Ok s
    /\ input_points s = points
    /\ Bezier.resolution s = resolution
    /\ length (spline_points s) = Z.to_nat (resolution + 1)
    /\ (points = [] ->
        spline_points s = repeat vzero (Z.to_nat (resolution + 1))).
Proof.
  intros _ _. exists (built points resolution). rewrite construct_state.
  split; [reflexivity|]. split; [reflexivity|]. split; [reflexivity|].
  split; [apply built_distance_lut|].
  intros ->. cbn [built spline_points].
  rewrite <- sample_times_length.
  induction (sample_times resolution) as [|t ts IH]; [reflexivity|].
  cbn [map length repeat]. rewrite IH. reflexivity.
Qed.

(** C8, witness: no control point and resolution 10. *)
Lemma construct_does_not_validate_witness :
  exists s,
    construct isqrtf [] 10 = Ok s
    /\ input_points s = []
    /\ Bezier.resolution s = 10%Z
    /\ length (spline_points s) = Z.to_nat (10 + 1)
    /\ (@nil Vector3f = [] ->
        spline_points s = repeat vzero (Z.to_nat (10 + 1))).
Proof.
  apply (@construct_does_not_validate isqrtf [] 10).
  - split; [intro H; discriminate H | reflexivity].
  - left. reflexivity.
Defined.

(** C9.  A spline built from two control points and rebuilt from the three
    of scenario A: the binomial table is regenerated by appending, has 5
    entries instead of 3, and the rebuild stops at the assertion
    [points.size() == binomial_lut.size()]. *)
Theorem rebuild_with_other_count (sqrtf : Qc -> Qc) :
  bind (construct sqrtf two_points 10)
       (fun s => generate_spline sqrtf s scenario_A 10)
  = AssertFailed
  /\ length (binomial_lut
               (generate_binomial_lut
                  (mkSpline scenario_A 10 (length scenario_A)
                            (binomial_lut (built two_points 10))
                            (spline_points (built two_points 10))
                            (distance_lut (built two_points 10)))))
     = 5%nat.
Proof.
  rewrite construct_state. cbn [bind]. split.
  - apply generate_spline_other_count; cbn; lia.
  - reflexivity.
Qed.

(* ------------------------------------------------------------------------- *)
(** *** Further properties of the spline *)

(** Truncation of a non-negative float is its floor. *)
Lemma Qctrunc_floor q : 0 <= q -> Qctrunc q = Qfloor (this q).
Proof.
  intros Hq. unfold Qctrunc, Qfloor. destruct q as [[n d] Hc].
  cbn [this Qnum Qden] in *.
  apply Z.quot_div_nonneg; [|reflexivity].
  unfold Qcle, Qle in Hq. cbn in Hq. lia.
Qed.

Lemma Qctrunc_mono a b : 0 <= a -> a <= b -> (Qctrunc a <= Qctrunc b)%Z.
Proof.
  intros Ha Hab.
  rewrite !Qctrunc_floor by (try assumption; eapply Qcle_trans; eassumption).
  apply Qfloor_resp_le. exact Hab.
Qed.

Lemma Z2Qc_this z : this (Z2Qc z) = inject_Z z.
Proof. unfold Z2Qc, Q2Qc. cbn [this]. apply Qred_inject_Z. Qed.

Lemma Z2Qc_le a b : (a <= b)%Z -> Z2Qc a <= Z2Qc b.
Proof.
  intros H. unfold Qcle. rewrite !Z2Qc_this. rewrite <- Zle_Qle. exact H.
Qed.

Lemma Z2Qc_lt a b : (a < b)%Z -> Z2Qc a < Z2Qc b.
Proof.
  intros H. unfold Qclt. rewrite !Z2Qc_this. rewrite <- Zlt_Qlt. exact H.
Qed.

Lemma Z2Qc_plus a b : Z2Qc (a + b) = Z2Qc a + Z2Qc b.
Proof.
  apply Qc_is_canon. rewrite Z2Qc_this.
  unfold Qcplus. unfold Q2Qc at 1. cbn [this].
  rewrite Qred_correct, !Z2Qc_this, inject_Z_plus. reflexivity.
Qed.

Lemma Qcdiv_nonneg a b : 0 <= a -> 0 < b -> 0 <= a / b.
Proof.
  intros Ha Hb. apply Qcmult_lt_0_le_reg_r with (z := b); [exact Hb|].
  rewrite Qcmult_0_l, Qcmult_comm, Qcmult_div_r; [exact Ha|].
  intros E. subst b. apply Qclt_not_eq in Hb. congruence.
Qed.

Lemma Qcdiv_le_1 a b : a <= b -> 0 < b -> a / b <= 1.
Proof.
  intros Hab Hb. apply Qcmult_lt_0_le_reg_r with (z := b); [exact Hb|].
  rewrite Qcmult_1_l, Qcmult_comm, Qcmult_div_r; [exact Hab|].
  intros E. subst b. apply Qclt_not_eq in Hb. congruence.
Qed.

(** The index [(int)(resolution * time)] of a valid time is a valid sample
    index. *)
Lemma time_index_range resolution time :
  (0 < resolution)%Z -> 0 <= time -> time <= 1 ->
  (0 <= Qctrunc (Z2Qc resolution * time) <= resolution)%Z.
Proof.
  intros Hres H0 H1.
  assert (Hr : 0 <= Z2Qc resolution).
  { rewrite <- Z2Qc_0. apply Z2Qc_le. lia. }
  assert (Hlo : 0 <= Z2Qc resolution * time).
  { rewrite <- (Qcmult_0_l time). apply Qcmult_le_compat_r; assumption. }
  assert (Hhi : Z2Qc resolution * time <= Z2Qc resolution).
  { rewrite <- (Qcmult_1_l (Z2Qc resolution)) at 2.
    rewrite (Qcmult_comm (Z2Qc resolution) time).
    apply Qcmult_le_compat_r; assumption. }
  split.
  - change 0%Z with (Qctrunc 0). apply Qctrunc_mono; [apply Qcle_refl | exact Hlo].
  - rewrite <- (Qctrunc_Z2Qc resolution) at 2.
    apply Qctrunc_mono; assumption.
Qed.

Lemma at_app_l {A} (l1 l2 : list A) k :
  (0 <= k < Z.of_nat (length l1))%Z -> at_ (l1 ++ l2) k = at_ l1 k.
Proof.
  intros Hk. unfold at_.
  destruct (Z.ltb_spec k 0); [lia|].
  rewrite nth_error_app1 by lia. reflexivity.
Qed.

(** X1.  On a spline constructed with a resolution from 1 to
    [FLOAT_INT_MAX], for a time at which [resolution * time] is a whole
    number [k] between 0 and [resolution] (so that the float product of the
    code is that number), [get_point_at_time] returns sample [k], which is
    the curve [f] evaluated at that very time.  A time below 0 or above 1
    stops at the assertion. *)
Theorem point_at_time_is_a_sample (sqrtf : Qc -> Qc) (points : list Vector3f)
        (resolution : Z) (time : Qc) (k : Z) :
  (0 < resolution <= FLOAT_INT_MAX)%Z ->
  (0 <= k <= resolution)%Z ->
  Z2Qc resolution * time = Z2Qc k ->
  exists s,
    construct sqrtf points resolution = Ok s
    /\ at_ (spline_points s) k = Ok (f s time)
    /\ get_point_at_time s time = Ok (f s time)
    /\ (forall time', time' < 0 \/ 1 < time' ->
        get_point_at_time s time' = AssertFailed).
Proof.
  intros [Hres _] Hk Hprod. exists (built points resolution).
  rewrite construct_state. split; [reflexivity|].
  assert (Hpos : 0 < Z2Qc resolution).
  { rewrite <- Z2Qc_0. apply Z2Qc_lt. exact Hres. }
  assert (Htime : time = Z2Qc k / Z2Qc resolution).
  { rewrite <- Hprod, (Qcmult_comm (Z2Qc resolution) time).
    symmetry. apply Qcdiv_mult_l.
    intros E. rewrite E in Hpos. apply Qclt_not_eq in Hpos. congruence. }
  assert (Hsample :
    at_ (spline_points (built points resolution)) k
    = Ok (f (built points resolution) time)).
  { rewrite <- (Z2Nat.id k) at 1 by lia.
    rewrite built_sample by lia. rewrite Z2Nat.id by lia.
    rewrite <- Htime. reflexivity. }
  split; [exact Hsample|]. split.
  - unfold get_point_at_time.
    assert (H0 : 0 <= time).
    { rewrite Htime. apply Qcdiv_nonneg; [|exact Hpos].
      rewrite <- Z2Qc_0. apply Z2Qc_le. lia. }
    assert (H1 : time <= 1).
    { rewrite Htime. apply Qcdiv_le_1; [|exact Hpos]. apply Z2Qc_le. lia. }
    apply Qcleb_le in H0, H1. rewrite H0, H1. cbn [andb negb].
    cbn [Bezier.resolution built]. rewrite Hprod, Qctrunc_Z2Qc.
    exact Hsample.
  - intros time' Hout. unfold get_point_at_time.
    destruct Hout as [Hlt | Hgt].
    + apply Qcleb_false_lt in Hlt. rewrite Hlt, andb_false_r. reflexivity.
    + apply Qcleb_false_lt in Hgt. rewrite Hgt. reflexivity.
Qed.

Lemma point_at_time_is_a_sample_witness :
  exists s,
    construct isqrtf scenario_A 10 = Ok s
    /\ at_ (spline_points s) 5 = Ok (f s (frac 1 2))
    /\ get_point_at_time s (frac 1 2) = Ok (f s (frac 1 2))
    /\ (forall time', time' < 0 \/ 1 < time' ->
        get_point_at_time s time' = AssertFailed).
Proof.
  apply (@point_at_time_is_a_sample isqrtf scenario_A 10 (frac 1 2) 5).
  - split; [reflexivity | intro H; discriminate H].
  - split; intro H; discriminate H.
  - apply Qc_is_canon. reflexivity.
Defined.

(** X2.  For every non-empty control-point sequence and every resolution
    from 1 to below [INT_MAX], [get_point_at_time(0)] of the constructed
    spline is the first control point. *)
Theorem point_at_time_zero_is_first_control_point
        (sqrtf : Qc -> Qc) (p : Vector3f) (rest : list Vector3f) (resolution : Z) :
  (0 < resolution < INT_MAX)%Z ->
  exists s,
    construct sqrtf (p :: rest) resolution = Ok s
    /\ get_point_at_time s 0 = Ok p.
Proof.
  intros [Hres _]. exists (built (p :: rest) resolution).
  rewrite construct_state. split; [reflexivity|].
  apply get_point_at_time_0_first. exact Hres.
Qed.

Lemma point_at_time_zero_is_first_control_point_witness :
  exists s,
    construct isqrtf two_points 4 = Ok s
    /\ get_point_at_time s 0 = Ok (mkV 0 0 0).
Proof.
  apply (@point_at_time_zero_is_first_control_point isqrtf (mkV 0 0 0) [mkV 1 1 0] 4).
  split; reflexivity.
Defined.

(** X3.  For every control-point sequence and every resolution from 1 to
    [FLOAT_INT_MAX] (so that [(float)resolution] is [resolution]),
    [get_point_at_time(1)] of the constructed spline is the origin: at
    t = 1 each term of [f] carries the factor (1 - t)^(size - i) with
    i < size. *)
Theorem point_at_time_one_is_origin
        (sqrtf : Qc -> Qc) (points : list Vector3f) (resolution : Z) :
  (0 < resolution <= FLOAT_INT_MAX)%Z ->
  exists s,
    construct sqrtf points resolution = Ok s
    /\ get_point_at_time s 1 = Ok vzero.
Proof.
  intros [Hres _]. exists (built points resolution).
  rewrite construct_state. split; [reflexivity|].
  apply get_point_at_time_1_origin. exact Hres.
Qed.

Lemma point_at_time_one_is_origin_witness :
  exists s,
    construct isqrtf two_points 4 = Ok s
    /\ get_point_at_time s 1 = Ok vzero.
Proof.
  apply (@point_at_time_one_is_origin isqrtf two_points 4).
  split; [reflexivity | intro H; discriminate H].
Defined.

(** [generate_spline] only appends to the sample vector. *)
Lemma generate_spline_appends (sqrtf : Qc -> Qc) s points resolution s' :
  generate_spline sqrtf s points resolution = Ok s' ->
  Bezier.resolution s' = resolution
  /\ spline_points s'
     = spline_points s ++ map (f s') (sample_times resolution).
Proof.
  unfold generate_spline. cbn [binomial_lut size].
  destruct (Nat.eqb (length (binomial_lut s)) (length points));
    (destruct (negb _); [discriminate|]);
    intros H; injection H as <-; split; reflexivity.
Qed.

(** X4.  A spline rebuilt with as many control points as before and the
    same resolution, from 1 to [FLOAT_INT_MAX], keeps answering
    [get_point_at_time] from the samples of the first build:
    [generate_spline] appends the new samples after the old ones, and an
    index of at most [resolution] never reaches them. *)
Theorem rebuild_keeps_old_samples
        (sqrtf : Qc -> Qc) (points points' : list Vector3f) (resolution : Z) :
  (0 < resolution <= FLOAT_INT_MAX)%Z ->
  length points' = length points ->
  exists s s',
    construct sqrtf points resolution = Ok s
    /\ generate_spline sqrtf s points' resolution = Ok s'
    /\ length (spline_points s') = (2 * length (spline_points s))%nat
    /\ forall time, get_point_at_time s' time = get_point_at_time s time.
Proof.
  intros [Hres _] Hlen.
  destruct (@generate_spline_same_count sqrtf (built points resolution) points' resolution)
    as [s' [Hs' _]].
  { cbn [built binomial_lut built_core]. rewrite length_map, length_seq.
    symmetry. exact Hlen. }
  exists (built points resolution), s'.
  rewrite construct_state. split; [reflexivity|]. split; [exact Hs'|].
  apply generate_spline_appends in Hs'. destruct Hs' as [Hr Hsp].
  destruct (built_distance_lut points resolution) as [_ Hn].
  split.
  - rewrite Hsp, length_app, length_map, sample_times_length, Hn. lia.
  - intros time. unfold get_point_at_time. rewrite Hr.
    cbn [Bezier.resolution built].
    destruct (Qcleb time 1 && Qcleb 0 time) eqn:E; [|reflexivity].
    cbn [negb]. apply andb_true_iff in E. destruct E as [H1 H0].
    apply Qcleb_le in H0, H1.
    pose proof (time_index_range Hres H0 H1) as Hk.
    rewrite Hsp. apply at_app_l.
    fold (built points resolution). rewrite Hn. lia.
Qed.

Lemma rebuild_keeps_old_samples_witness :
  exists s s',
    construct isqrtf two_points 4 = Ok s
    /\ generate_spline isqrtf s [mkV 0 0 0; mkV (Z2Qc 3) 0 0] 4 = Ok s'
    /\ length (spline_points s') = (2 * length (spline_points s))%nat
    /\ forall time, get_point_at_time s' time = get_point_at_time s time.
Proof.
  apply (@rebuild_keeps_old_samples isqrtf two_points [mkV 0 0 0; mkV (Z2Qc 3) 0 0] 4).
  - split; [reflexivity | intro H; discriminate H].
  - reflexivity.
Defined.

(** The loop of [generate_distance_lut]: it appends one integer per
    iteration, each at least the one before and at most [bound] above
    it. *)
Lemma distance_fold_sorted (sqrtf : Qc -> Qc) (pts : list Vector3f) (bound : Z) :
  (forall x, 0 <= sqrtf x) ->
  forall ts arc lut,
    (0 <= arc)%Z ->
    (forall t, In t ts ->
               norm sqrtf (vsub (nth (t - 1) pts vzero) (nth t pts vzero))
               <= Z2Qc bound) ->
    exists zs,
      snd (fold_left (distance_step sqrtf pts) ts (arc, lut)) = lut ++ map Z2Qc zs
      /\ length zs = length ts
      /\ Sorted Z.le (arc :: zs)
      /\ Forall (fun z => (arc <= z <= arc + Z.of_nat (length ts) * bound)%Z) zs.
Proof.
  intros Hsqrt. induction ts as [|t ts IH]; intros arc lut Harc Hbound.
  - exists []. cbn. rewrite app_nil_r. repeat split; repeat constructor.
  - cbn [fold_left distance_step].
    set (step := norm sqrtf (vsub (nth (t - 1) pts vzero) (nth t pts vzero))).
    set (arc' := Qctrunc (Z2Qc arc + step)).
    assert (Hstep0 : 0 <= step) by apply Hsqrt.
    assert (HstepB : step <= Z2Qc bound) by (apply Hbound; left; reflexivity).
    assert (Harc0 : 0 <= Z2Qc arc).
    { rewrite <- Z2Qc_0. apply Z2Qc_le. exact Harc. }
    assert (Hlow : (arc <= arc')%Z).
    { unfold arc'. rewrite <- (Qctrunc_Z2Qc arc) at 1.
      apply Qctrunc_mono; [exact Harc0|].
      rewrite <- (Qcplus_0_r (Z2Qc arc)) at 1.
      apply Qcplus_le_compat; [apply Qcle_refl | exact Hstep0]. }
    assert (Hhigh : (arc' <= arc + bound)%Z).
    { unfold arc'. rewrite <- (Qctrunc_Z2Qc (arc + bound)).
      apply Qctrunc_mono.
      - rewrite <- (Qcplus_0_r 0). apply Qcplus_le_compat; assumption.
      - rewrite Z2Qc_plus.
        apply Qcplus_le_compat; [apply Qcle_refl | exact HstepB]. }
    destruct (IH arc' (lut ++ [Z2Qc arc'])) as [zs [Hzs [Hlen [Hsorted Hall]]]];
      [lia | intros t' Ht'; apply Hbound; right; exact Ht' |].
    exists (arc' :: zs). split; [|split; [|split]].
    + rewrite Hzs, <- app_assoc. reflexivity.
    + cbn. rewrite Hlen. reflexivity.
    + constructor; [exact Hsorted | constructor; exact Hlow].
    + assert (Hb : (0 <= bound)%Z) by lia.
      constructor.
      * cbn [length]. nia.
      * eapply Forall_impl; [|exact Hall].
        cbn [length]. intros z Hz. cbv beta in Hz. nia.
Qed.

(** X5.  Whatever the state, [generate_distance_lut] appends to the table:
    first a 0, then one entry per further sample.  When the square root is
    never negative and the distance between consecutive samples is at most
    [bound], with (number of samples) * [bound] within [FLOAT_INT_MAX] (so
    that the [int] accumulator and its float sums hold exact whole
    numbers), every appended entry is a whole number between 0 and
    [FLOAT_INT_MAX] and the appended entries are in non-decreasing
    order. *)
Theorem distance_lut_appends_sorted_integers (sqrtf : Qc -> Qc) (s : BezierSpline)
        (bound : Z) :
  (forall x, 0 <= sqrtf x) ->
  (forall t, (1 <= t < length (spline_points s))%nat ->
             norm sqrtf (vsub (nth (t - 1) (spline_points s) vzero)
                              (nth t (spline_points s) vzero))
             <= Z2Qc bound) ->
  (0 <= Z.of_nat (length (spline_points s)) * bound <= FLOAT_INT_MAX)%Z ->
  exists zs,
    distance_lut (generate_distance_lut sqrtf s)
    = distance_lut s ++ map Z2Qc (0%Z :: zs)
    /\ length (0%Z :: zs) = Nat.max 1 (length (spline_points s))
    /\ Sorted Z.le (0%Z :: zs)
    /\ Forall (fun z => (0 <= z <= FLOAT_INT_MAX)%Z) (0%Z :: zs).
Proof.
  intros Hsqrt Hbound Hfit. unfold generate_distance_lut. cbn [distance_lut].
  destruct (@distance_fold_sorted sqrtf (spline_points s) bound Hsqrt
              (seq 1 (length (spline_points s) - 1)) 0%Z
              (distance_lut s ++ [Z2Qc 0]))
    as [zs [Hzs [Hlen [Hsorted Hall]]]].
  - lia.
  - intros t Ht. apply in_seq in Ht. apply Hbound. lia.
  - exists zs. split; [|split; [|split]].
    + rewrite Hzs, <- app_assoc. reflexivity.
    + cbn [length]. rewrite Hlen, length_seq. lia.
    + exact Hsorted.
    + constructor; [unfold FLOAT_INT_MAX; lia|].
      eapply Forall_impl; [|exact Hall].
      rewrite length_seq. intros z Hz. cbv beta in Hz.
      unfold FLOAT_INT_MAX in *. nia.
Qed.

Lemma isqrtf_nonneg x : 0 <= isqrtf x.
Proof.
  unfold isqrtf. rewrite <- Z2Qc_0. apply Z2Qc_le. apply Z.sqrt_nonneg.
Qed.

(** X5, witness: the three samples (0,0,0), (1/2,1,0), (0,0,0) of the
    control points (0,0,0), (1,2,0) at resolution 2; with the integer
    square root each step has length 1 and the appended entries are
    0, 1, 2. *)
Lemma distance_lut_appends_sorted_integers_witness :
  exists zs,
    distance_lut (generate_distance_lut isqrtf (built [mkV 0 0 0; mkV 1 (Z2Qc 2) 0] 2))
    = distance_lut (built [mkV 0 0 0; mkV 1 (Z2Qc 2) 0] 2) ++ map Z2Qc (0%Z :: zs)
    /\ length (0%Z :: zs)
       = Nat.max 1 (length (spline_points (built [mkV 0 0 0; mkV 1 (Z2Qc 2) 0] 2)))
    /\ Sorted Z.le (0%Z :: zs)
    /\ Forall (fun z => (0 <= z <= FLOAT_INT_MAX)%Z) (0%Z :: zs).
Proof.
  apply (@distance_lut_appends_sorted_integers
           isqrtf (built [mkV 0 0 0; mkV 1 (Z2Qc 2) 0] 2) 1).
  - exact isqrtf_nonneg.
  - intros t Ht.
    destruct t as [|[|[|t]]].
    + exfalso. destruct Ht as [Ht _]. inversion Ht.
    + vm_compute. intro H. discriminate H.
    + vm_compute. intro H. discriminate H.
    + exfalso. destruct Ht as [_ Ht]. vm_compute in Ht.
      do 3 apply le_S_n in Ht. inversion Ht.
  - vm_compute. split; intro H; discriminate H.
Defined.

(** The loop of [get_time_idx] never returns a negative index: the index
    [t_idx - 1] is returned only after [distance_lut[t_idx - 1]] was read. *)
Lemma time_idx_loop_nonneg lut distance l found i :
  (0 <= found)%Z ->
  time_idx_loop lut distance l found = Ok i -> (0 <= i)%Z.
Proof.
  revert found. induction l as [|n l IH]; intros found Hf H; cbn in H.
  - congruence.
  - destruct (at_ lut (Z.of_nat n)) as [here| |]; cbn in H; try discriminate.
    destruct (Qcltb distance here).
    + unfold at_ in H.
      destruct (Z.ltb_spec (Z.of_nat n - 1) 0); cbn in H; [discriminate|].
      destruct (nth_error lut _); cbn in H; [|discriminate].
      destruct (Qcltb _ _); injection H as <-; lia.
    + eapply IH; [|exact H]. lia.
Qed.

Lemma get_time_idx_bounds s distance i :
  (0 < resolution s)%Z ->
  get_time_idx s distance = Ok i -> (0 <= i < resolution s)%Z.
Proof.
  intros Hres H. split.
  - unfold get_time_idx in H. eapply time_idx_loop_nonneg; [|exact H]. lia.
  - eapply get_time_idx_lt_resolution; eassumption.
Qed.

(** A spline built from the control points (0,0,0), (1,2,0) with
    resolution 2 and rebuilt from the same input, with the integer square
    root: a state in which the distance table, [0; 0; 1; 2], is long enough
    for the lookups by distance. *)
Definition rebuilt_two_points : outcome BezierSpline :=
  bind (construct isqrtf [mkV 0 0 0; mkV 1 (Z2Qc 2) 0] 2)
       (fun s => generate_spline isqrtf s [mkV 0 0 0; mkV 1 (Z2Qc 2) 0] 2).

(** X6.  With a resolution from 1 to [FLOAT_INT_MAX] (so that the float
    the function returns holds the index it found), an index returned by
    [get_time_idx] lies in 0 .. resolution-1, whatever the table and the
    distance: it is never negative and never [resolution]. *)
Theorem get_time_idx_range (s : BezierSpline) (distance : Qc) (i : Z) :
  (0 < resolution s <= FLOAT_INT_MAX)%Z ->
  get_time_idx s distance = Ok i ->
  (0 <= i <= resolution s - 1)%Z.
Proof.
  intros [Hres _] H. pose proof (get_time_idx_bounds _ _ Hres H). lia.
Qed.

Lemma get_time_idx_range_witness :
  exists s,
    rebuilt_two_points = Ok s
    /\ get_time_idx s (Z2Qc 1) = Ok 1%Z
    /\ (0 <= 1 <= resolution s - 1)%Z.
Proof.
  eexists. split; [vm_compute; reflexivity|].
  split; [vm_compute; reflexivity|].
  eapply get_time_idx_range with (distance := Z2Qc 1).
  - vm_compute. split; [reflexivity | intro H; discriminate H].
  - vm_compute. reflexivity.
Defined.

(** X7.  With a resolution from 1 to [FLOAT_INT_MAX], whenever
    [get_point_at_distance] returns a point, that point is the curve [f]
    evaluated at a parameter between 0 and 1. *)
Theorem point_at_distance_is_on_curve (s : BezierSpline) (distance : Qc)
        (p : Vector3f) :
  (0 < resolution s <= FLOAT_INT_MAX)%Z ->
  get_point_at_distance s distance = Ok p ->
  exists t, 0 <= t /\ t <= 1 /\ p = f s t.
Proof.
  intros [Hres _] H. unfold get_point_at_distance in H.
  destruct (get_time_idx s distance) as [i| |] eqn:Ei; cbn [bind] in H;
    try discriminate.
  pose proof (get_time_idx_bounds _ _ Hres Ei) as Hi.
  destruct (Z.eqb_spec i (resolution s)); [lia|].
  destruct (at_ (distance_lut s) (i + 1)) as [upper| |]; cbn [bind] in H;
    try discriminate.
  destruct (at_ (distance_lut s) i) as [lower| |]; cbn [bind] in H;
    try discriminate.
  destruct (Qceqb (upper - lower) 0); [discriminate|].
  destruct (Qcleb 0 _ && Qcleb _ 1) eqn:E; cbn [negb] in H; [|discriminate].
  injection H as <-.
  apply andb_true_iff in E. destruct E as [H0 H1].
  apply Qcleb_le in H0, H1.
  set (diff_frac := (upper - distance) / (upper - lower)) in *.
  assert (Hpos : 0 < Z2Qc (resolution s)).
  { rewrite <- Z2Qc_0. apply Z2Qc_lt. exact Hres. }
  assert (Hi0 : 0 <= Z2Qc i).
  { rewrite <- Z2Qc_0. apply Z2Qc_le. lia. }
  eexists. split; [|split; [|reflexivity]].
  - apply Qcdiv_nonneg; [|exact Hpos].
    rewrite <- (Qcplus_0_r 0). apply Qcplus_le_compat; assumption.
  - apply Qcdiv_le_1; [|exact Hpos].
    replace (resolution s) with ((resolution s - 1) + 1)%Z by lia.
    rewrite Z2Qc_plus, Z2Qc_1.
    apply Qcplus_le_compat; [apply Z2Qc_le; lia | exact H1].
Qed.

Lemma point_at_distance_is_on_curve_witness :
  exists s p,
    rebuilt_two_points = Ok s
    /\ get_point_at_distance s (Z2Qc 1) = Ok p
    /\ exists t, 0 <= t /\ t <= 1 /\ p = f s t.
Proof.
  eexists. eexists. split; [vm_compute; reflexivity|].
  split; [vm_compute; reflexivity|].
  eapply point_at_distance_is_on_curve with (distance := Z2Qc 1).
  - vm_compute. split; [reflexivity | intro H; discriminate H].
  - vm_compute. reflexivity.
Defined.

(** X8.  [generate_spline] stops at its assertion exactly when the binomial
    table it finds is not empty and its size differs from the number of
    control points. *)
Theorem generate_spline_fails_iff (sqrtf : Qc -> Qc) (s : BezierSpline)
        (points : list Vector3f) (resolution : Z) :
  generate_spline sqrtf s points resolution = AssertFailed
  <-> length (binomial_lut s) <> length points
      /\ length (binomial_lut s) <> 0%nat.
Proof.
  split.
  - intros H.
    destruct (Nat.eq_dec (length (binomial_lut s)) (length points)) as [E|E].
    + destruct (@generate_spline_same_count sqrtf s points resolution E)
        as [s' [Hs' _]]. congruence.
    + split; [exact E|]. intros E0.
      unfold generate_spline in H. cbn [binomial_lut size] in H.
      destruct (Nat.eqb_spec (length (binomial_lut s)) (length points));
        [contradiction|].
      rewrite generate_binomial_lut_length in H. cbn [binomial_lut size] in H.
      rewrite E0, Nat.add_0_l, Nat.eqb_refl in H. discriminate.
  - intros [Hne Hpos]. apply generate_spline_other_count; assumption.
Qed.

(** X9.  For every input with a resolution from 1 to below [INT_MAX], the
    constructed spline has the one-entry distance table [0], and every
    lookup by distance, whatever the distance, reads outside that table. *)
Theorem constructed_spline_has_no_distance_lookup
        (sqrtf : Qc -> Qc) (points : list Vector3f) (resolution : Z) :
  (1 <= resolution < INT_MAX)%Z ->
  exists s,
    construct sqrtf points resolution = Ok s
    /\ distance_lut s = [Z2Qc 0]
    /\ forall distance, get_point_at_distance s distance = OutOfBounds.
Proof.
  intros [Hres _]. exists (built points resolution).
  rewrite construct_state. split; [reflexivity|]. split; [reflexivity|].
  intros distance. apply get_point_at_distance_built. exact Hres.
Qed.

Lemma constructed_spline_has_no_distance_lookup_witness :
  exists s,
    construct isqrtf two_points 1 = Ok s
    /\ distance_lut s = [Z2Qc 0]
    /\ forall distance, get_point_at_distance s distance = OutOfBounds.
Proof.
  apply (@constructed_spline_has_no_distance_lookup isqrtf two_points 1).
  split; [intro H; discriminate H | reflexivity].
Defined.

End Bezier.

(* ------------------------------------------------------------------------- *)
(** ** The service handlers  (src/mdi/src/nodes/rrt_service.cpp) *)

Module RrtService.

Local Open Scope Qc_scope.

(** [geometry_msgs::Point]; value-initialised to (0,0,0). *)
Record Point := mkPoint { x : Qc; y : Qc; z : Qc }.
Definition Point_default : Point := mkPoint 0 0 0.

(** [mdi::rrt::RRT::Waypoints]: a sequence of [vec3]. *)
Definition Waypoints := list Vector3f.

(** The lambda of [waypoints_to_geometry_msgs_points], lines 105-111. *)
Definition to_geo_pt (pt : Vector3f) : Point := mkPoint (vx pt) (vy pt) (vz pt).

(** [waypoints_to_geometry_msgs_points], lines 102-114.
<<
    auto points = std::vector<geometry_msgs::Point>(wps.size());
    std::transform(wps.begin(), wps.end(), std::back_inserter(points), ...);
    return points;
>>
    The constructor call makes a vector of [wps.size()] value-initialised
    points; [back_inserter] then appends the converted waypoints after
    them. *)
Definition waypoints_to_geometry_msgs_points (wps : Waypoints) : list Point :=
  repeat Point_default (length wps) ++ map to_geo_pt wps.

(** The [convert] lambda of both handlers. *)
Definition convert (pt : Point) : Vector3f := mkV (x pt) (y pt) (z pt).

(** Request and response messages ([mdi_msgs]), with the fields the
    handlers read and write. *)
Record RrtConfig := mkRrtConfig {
  start : Point;
  goal : Point;
  max_iterations : nat;
  goal_bias : Qc;
  probability_of_testing_full_path_from_new_node_to_goal : Qc;
  goal_tolerance : Qc;
  step_size : Qc
}.

Record RrtFindPath_Request := mkFindPathRequest { rrt_config : RrtConfig }.
Record RrtFindPath_Response := mkFindPathResponse { waypoints : list Point }.

Record FoVMsg := mkFoVMsg {
  horizontal_angle : Qc;
  vertical_angle : Qc;
  pitch_angle : Qc;
  depth_range_min : Qc;
  depth_range_max : Qc
}.

Record NBVConfig := mkNBVConfig {
  weight_free : Qc;
  weight_occupied : Qc;
  weight_unknown : Qc;
  weight_distance_to_object : Qc;
  gain_of_interest_threshold : Qc
}.

Record NBV_Request := mkNBVRequest {
  nbv_rrt_config : RrtConfig;
  nbv_config : NBVConfig;
  fov : FoVMsg
}.

Record NBV_Response := mkNBVResponse {
  nbv_waypoints : list Point;
  found_nbv_with_sufficent_gain : bool
}.

(** What the builder chain [RRT::from_builder()....build()] is given. *)
Record RRTBuilder := mkBuilder {
  b_start : Vector3f;
  b_goal : Vector3f;
  b_max_iterations : nat;
  b_goal_bias : Qc;
  b_probability_of_testing_full_path_from_new_node_to_goal : Qc;
  b_max_dist_goal_tolerance : Qc;
  b_step_size : Qc
}.

(** The field of view handed to the gain function: pose (position and
    the two rotation angles the quaternion is built from), angular extents,
    depth range and target. *)
Record FoV := mkFoV {
  pose_position : Vector3f;
  pose_yaw : Qc;
  pose_pitch : Qc;
  horizontal : Qc;
  vertical : Qc;
  depth_range : Qc * Qc;
  target : Vector3f
}.

(** The planner [mdi::rrt::RRT] (mdi/rrt/rrt.hpp) is outside src/.  The
    handlers use it through these member functions only.  [grow1] returns
    the grown tree together with the node-created event it fired, if any:
    the pair (parent position, new point) the registered listener is
    called with. *)
Class RRTInterface (RRT Octomap : Type) := {
  build : RRTBuilder -> RRT;
  assign_octomap : Octomap -> RRT -> RRT;
  run : RRT -> option Waypoints;
  grow1 : RRT -> RRT * option (Vector3f * Vector3f);
  waypoints_from_newest_node : RRT -> option Waypoints;
  get_waypoints_from_nearsest_node_to : Vector3f -> RRT -> option Waypoints
}.

(** Library functions the node-created listener calls: [std::atan2],
    [deg2rad] and [mdi::gain_of_fov] (mdi/gain.hpp, outside src/). *)
Class GainInterface (Octomap : Type) := {
  atan2 : Qc -> Qc -> Qc;
  deg2rad : Qc -> Qc;
  gain_of_fov : FoV -> Octomap -> Qc -> Qc -> Qc -> Qc -> (Qc -> Qc) -> Qc
}.

(** How a handler ends: it returns, or the listener dereferences the null
    map pointer. *)
Inductive ending (A : Type) : Type :=
| Returned (a : A)
| NullDereference.
Arguments NullDereference {A}.

(** The locals of [nbv_handler] that the listener captures by reference.
    [best_gain] starts at minus infinity, here [None]. *)
Record nbv_locals := mkLocals {
  best_gain : option Qc;
  best_point : Vector3f;
  found_suitable_nbv : bool
}.

Definition initial_locals : nbv_locals := mkLocals None (mkV 0 0 0) false.

(** What [nbv_handler] leaves behind: the returned flag, the response, and
    the number of [grow1] calls it made (a counter of the embedding). *)
Record nbv_result := mkResult {
  success : bool;
  response : NBV_Response;
  grow1_calls : nat
}.

Section Handlers.

Context {RRT Octomap : Type}.
Context {rrt_ops : RRTInterface RRT Octomap}.
Context {gain_ops : GainInterface Octomap}.

(** The tree [rrt_find_path_handler] builds, lines 122-133. *)
Definition find_path_tree (request : RrtFindPath_Request) : RRT :=
  let c := rrt_config request in
  build (mkBuilder (convert (start c)) (convert (goal c))
                   (max_iterations c) (goal_bias c)
                   (probability_of_testing_full_path_from_new_node_to_goal c)
                   (goal_tolerance c) (step_size c)).

(** Lines 144-148 and 200-204 of both handlers:
<<
    if (octomap_ptr != nullptr) { rrt.assign_octomap(octomap_ptr); }
>> *)
Definition assign_if_present (octomap_ptr : option Octomap) (rrt : RRT) : RRT :=
  match octomap_ptr with
  | Some octomap => assign_octomap octomap rrt
  | None => rrt
  end.

(** [rrt_find_path_handler], lines 116-170.  [octomap_ptr] is what
    [call_get_environment_octomap()] returned: [None] for [nullptr].
<<
    auto success = false;
    auto octomap_ptr = call_get_environment_octomap();
    if (octomap_ptr != nullptr) { rrt.assign_octomap(octomap_ptr); }
    if (const auto opt = rrt.run()) {
        const auto path = opt.value();
        response.waypoints = waypoints_to_geometry_msgs_points(path);
        success = true;
    }
    return success;
>> *)
Definition rrt_find_path_handler (request : RrtFindPath_Request)
           (octomap_ptr : option Octomap) (response : RrtFindPath_Response)
  : bool * RrtFindPath_Response :=
  let rrt := assign_if_present octomap_ptr (find_path_tree request) in
  match run rrt with
  | Some path => (true, mkFindPathResponse (waypoints_to_geometry_msgs_points path))
  | None => (false, response)
  end.

(** The tree [nbv_handler] builds, lines 186-196: the goal is the fixed
    point (500,500,500), the full-path probability and the goal tolerance
    are 0. *)
Definition nbv_tree (request : NBV_Request) : RRT :=
  let c := nbv_rrt_config request in
  build (mkBuilder (convert (start c)) (mkV (Z2Qc 500) (Z2Qc 500) (Z2Qc 500))
                   (max_iterations c) (goal_bias c) 0 0 (step_size c)).

(** The field of view the listener derives for a new node, lines 217-228. *)
Definition fov_of_new_point (request : NBV_Request) (new_point : Vector3f) : FoV :=
  let target := convert (goal (nbv_rrt_config request)) in
  let dir := vsub target new_point in
  let yaw := atan2 (vy dir) (vx dir) in
  mkFoV new_point yaw (deg2rad (pitch_angle (fov request)))
        (horizontal_angle (fov request)) (vertical_angle (fov request))
        (depth_range_min (fov request), depth_range_max (fov request))
        target.

(** The score of a new node, lines 242-245. *)
Definition gain_of_new_point (request : NBV_Request) (octomap : Octomap)
           (new_point : Vector3f) : Qc :=
  let c := nbv_config request in
  gain_of_fov (fov_of_new_point request new_point) octomap
              (weight_free c) (weight_occupied c) (weight_unknown c)
              (weight_distance_to_object c) (fun x => x).

(** [gain > best_gain], with [best_gain] possibly minus infinity. *)
Definition exceeds_best (gain : Qc) (best : option Qc) : bool :=
  match best with
  | None => true
  | Some b => Qcltb b gain
  end.

(** The node-created listener, lines 213-263.
<<
    const double gain = mdi::gain_of_fov(fov, *octomap_environment_ptr, ...);
    if (gain > best_gain) { best_gain = gain; best_point = fov.pose().position; }
    if (gain >= request.nbv_config.gain_of_interest_threshold) {
        found_suitable_nbv = true;
    }
>> *)
Definition on_new_node_created (request : NBV_Request)
           (octomap_environment_ptr : option Octomap) (locals : nbv_locals)
           (parent new_point : Vector3f) : ending nbv_locals :=
  match octomap_environment_ptr with
  | None => NullDereference
  | Some octomap =>
      let fov := fov_of_new_point request new_point in
      let gain := gain_of_new_point request octomap new_point in
      let locals1 :=
        if exceeds_best gain (best_gain locals)
        then mkLocals (Some gain) (pose_position fov) (found_suitable_nbv locals)
        else locals in
      let locals2 :=
        if Qcleb (gain_of_interest_threshold (nbv_config request)) gain
        then mkLocals (best_gain locals1) (best_point locals1) true
        else locals1 in
      Returned locals2
  end.

(** One call of [rrt.grow1()] with the listener registered. *)
Definition grow1_with_listener (request : NBV_Request)
           (octomap_environment_ptr : option Octomap) (rrt : RRT)
           (locals : nbv_locals) : ending (RRT * nbv_locals) :=
  let '(rrt', event) := grow1 rrt in
  match event with
  | None => Returned (rrt', locals)
  | Some (parent, new_point) =>
      match on_new_node_created request octomap_environment_ptr locals
                                parent new_point with
      | Returned locals' => Returned (rrt', locals')
      | NullDereference => NullDereference
      end
  end.

(** The growth loop, lines 265-285; [iterations] counts the iterations
    still to run.
<<
    for (std::size_t i = 0; i < request.rrt_config.max_iterations; ++i) {
        rrt.grow1();
        if (found_suitable_nbv) {
            if (const auto opt = rrt.waypoints_from_newest_node()) {
                response.waypoints = waypoints_to_geometry_msgs_points(opt.value());
                response.found_nbv_with_sufficent_gain = true;
                success = true;
            } else {
                response.found_nbv_with_sufficent_gain = false;
                success = false;
            }
            break;
        }
    }
>> *)
Fixpoint nbv_loop (request : NBV_Request) (octomap_environment_ptr : option Octomap)
         (iterations : nat) (rrt : RRT) (locals : nbv_locals)
         (response : NBV_Response) (calls : nat)
  : ending (RRT * nbv_locals * nbv_result) :=
  match iterations with
  | O => Returned (rrt, locals, mkResult false response calls)
  | S n =>
      match grow1_with_listener request octomap_environment_ptr rrt locals with
      | NullDereference => NullDereference
      | Returned (rrt', locals') =>
          if found_suitable_nbv locals' then
            match waypoints_from_newest_node rrt' with
            | Some path =>
                Returned (rrt', locals',
                          mkResult true
                                   (mkNBVResponse (waypoints_to_geometry_msgs_points path) true)
                                   (S calls))
            | None =>
                Returned (rrt', locals',
                          mkResult false
                                   (mkNBVResponse (nbv_waypoints response) false)
                                   (S calls))
            end
          else nbv_loop request octomap_environment_ptr n rrt' locals' response (S calls)
      end
  end.

(** The fallback, lines 287-296.
<<
    if (! success) {
        if (const auto opt = rrt.get_waypoints_from_nearsest_node_to(best_point)) {
            response.waypoints = waypoints_to_geometry_msgs_points(opt.value());
            response.found_nbv_with_sufficent_gain = false;
        }
    }
>> *)
Definition nbv_fallback (rrt : RRT) (locals : nbv_locals) (r : nbv_result)
  : nbv_result :=
  if success r then r
  else
    match get_waypoints_from_nearsest_node_to (best_point locals) rrt with
    | Some path =>
        mkResult false
                 (mkNBVResponse (waypoints_to_geometry_msgs_points path) false)
                 (grow1_calls r)
    | None => r
    end.

(** [nbv_handler], lines 172-303. *)
Definition nbv_handler (request : NBV_Request)
           (octomap_environment_ptr : option Octomap) (response : NBV_Response)
  : ending nbv_result :=
  let rrt := assign_if_present octomap_environment_ptr (nbv_tree request) in
  match nbv_loop request octomap_environment_ptr
                 (max_iterations (nbv_rrt_config request))
                 rrt initial_locals response 0 with
  | NullDereference => NullDereference
  | Returned (rrt', locals, r) => Returned (nbv_fallback rrt' locals r)
  end.

(** *** Vocabulary for the statements about the growth loop *)

(** The tree after [n] calls of [grow1], and the events these calls fired,
    in order ([None] for a call that created no node). *)
Fixpoint grow_n (n : nat) (rrt : RRT) : RRT :=
  match n with
  | O => rrt
  | S k => grow_n k (fst (grow1 rrt))
  end.

Fixpoint events (n : nat) (rrt : RRT) : list (option (Vector3f * Vector3f)) :=
  match n with
  | O => []
  | S k => snd (grow1 rrt) :: events k (fst (grow1 rrt))
  end.

(** The score of the node an event created. *)
Definition event_gain (request : NBV_Request) (octomap : Octomap)
           (event : option (Vector3f * Vector3f)) : option Qc :=
  match event with
  | None => None
  | Some (_, new_point) => Some (gain_of_new_point request octomap new_point)
  end.

(** "The event created no node, or a node that scores below [bound]", and
    the same with "at most". *)
Definition scores_below (request : NBV_Request) (octomap : Octomap) (bound : Qc)
           (event : option (Vector3f * Vector3f)) : Prop :=
  match event_gain request octomap event with
  | None => True
  | Some g => g < bound
  end.

Definition scores_at_most (request : NBV_Request) (octomap : Octomap) (bound : Qc)
           (event : option (Vector3f * Vector3f)) : Prop :=
  match event_gain request octomap event with
  | None => True
  | Some g => g <= bound
  end.

(** The best-gain bookkeeping of the listener alone. *)
Definition track (request : NBV_Request) (octomap : Octomap)
           (locals : nbv_locals) (event : option (Vector3f * Vector3f))
  : nbv_locals :=
  match event with
  | None => locals
  | Some (_, new_point) =>
      let gain := gain_of_new_point request octomap new_point in
      if exceeds_best gain (best_gain locals)
      then mkLocals (Some gain) new_point (found_suitable_nbv locals)
      else locals
  end.

Definition track_best (request : NBV_Request) (octomap : Octomap)
           (evs : list (option (Vector3f * Vector3f))) (locals : nbv_locals)
  : nbv_locals :=
  fold_left (track request octomap) evs locals.

End Handlers.

(* ------------------------------------------------------------------------- *)
(** *** A planner to run the handlers on *)

(** Modelled from the spec: the planner class [mdi::rrt::RRT] is outside
    src/.  From sections 3, 4.1 and 9 of the specification: the tree is an
    append-only arena of nodes, each with a position and the id of its
    parent, the root first; [grow1] inserts at most one node, whose parent
    is an existing node, and fires the node-created event; [run] calls
    [grow1] until a node within the goal tolerance is created or the
    iteration budget is used up; waypoints are the parent links backtracked
    from a node, root first.  The random sampler, the steering step and the
    collision test are collaborators of the tree: their joint verdict for
    each iteration is read from a script ([None]: the segment is rejected;
    [Some (id, p)]: the node [p] is accepted under parent [id]). *)
Record TreeNode := mkNode { position : Vector3f; parent_id : nat }.

Record ScriptedRRT := mkTree {
  config : RRTBuilder;
  octomap : option unit;
  nodes : list TreeNode;
  pending : list (option (nat * Vector3f))
}.

Definition scripted_build (script : list (option (nat * Vector3f)))
           (b : RRTBuilder) : ScriptedRRT :=
  mkTree b None [mkNode (b_start b) 0] script.

Definition scripted_assign_octomap (m : unit) (t : ScriptedRRT) : ScriptedRRT :=
  mkTree (config t) (Some m) (nodes t) (pending t).

Definition scripted_grow1 (t : ScriptedRRT)
  : ScriptedRRT * option (Vector3f * Vector3f) :=
  match pending t with
  | [] => (t, None)
  | None :: rest => (mkTree (config t) (octomap t) (nodes t) rest, None)
  | Some (id, p) :: rest =>
      match nth_error (nodes t) id with
      | None => (mkTree (config t) (octomap t) (nodes t) rest, None)
      | Some parent =>
          (mkTree (config t) (octomap t) (nodes t ++ [mkNode p id]) rest,
           Some (position parent, p))
      end
  end.

Fixpoint backtrack (arena : list TreeNode) (fuel id : nat) (acc : Waypoints)
  : Waypoints :=
  match fuel with
  | O => acc
  | S fuel' =>
      match nth_error arena id with
      | None => acc
      | Some n =>
          if Nat.eqb id 0 then position n :: acc
          else backtrack arena fuel' (parent_id n) (position n :: acc)
      end
  end.

Definition waypoints_from (arena : list TreeNode) (id : nat) : option Waypoints :=
  match arena with
  | [] => None
  | _ => Some (backtrack arena (length arena) id [])
  end.

Definition scripted_waypoints_from_newest_node (t : ScriptedRRT)
  : option Waypoints :=
  waypoints_from (nodes t) (length (nodes t) - 1).

(** The id of the node nearest to [p]: linear scan, the first of equally
    near nodes. *)
Definition nearest_id (arena : list TreeNode) (p : Vector3f) : nat :=
  fst (fold_left
         (fun (best : nat * option Qc) (i : nat) =>
            let d := squaredNorm (vsub (position (nth i arena (mkNode vzero 0))) p) in
            match snd best with
            | None => (i, Some d)
            | Some b => if Qcltb d b then (i, Some d) else best
            end)
         (seq 0 (length arena)) (0%nat, None)).

Definition scripted_nearest (p : Vector3f) (t : ScriptedRRT) : option Waypoints :=
  waypoints_from (nodes t) (nearest_id (nodes t) p).

Fixpoint scripted_run_loop (iterations : nat) (t : ScriptedRRT)
  : option Waypoints :=
  match iterations with
  | O => None
  | S n =>
      let '(t', event) := scripted_grow1 t in
      match event with
      | Some (_, p) =>
          let tol := b_max_dist_goal_tolerance (config t') in
          if Qcleb (squaredNorm (vsub p (b_goal (config t')))) (tol * tol)
          then scripted_waypoints_from_newest_node t'
          else scripted_run_loop n t'
      | None => scripted_run_loop n t'
      end
  end.

Definition scripted_run (t : ScriptedRRT) : option Waypoints :=
  scripted_run_loop (b_max_iterations (config t)) t.

Definition scripted (script : list (option (nat * Vector3f)))
  : RRTInterface ScriptedRRT unit :=
  {| build := scripted_build script;
     assign_octomap := scripted_assign_octomap;
     run := scripted_run;
     grow1 := scripted_grow1;
     waypoints_from_newest_node := scripted_waypoints_from_newest_node;
     get_waypoints_from_nearsest_node_to := scripted_nearest |}.

(** A gain function to run the listener on: the weighted x coordinate of
    the viewpoint plus the three voxel weights. *)
Definition sample_gain : GainInterface unit :=
  {| atan2 := fun _ _ => 0;
     deg2rad := fun a => a;
     gain_of_fov := fun fov _ wf wo wu wd g =>
                      wf + wo + wu + wd * g (vx (pose_position fov)) |}.

(** Concrete requests. *)
Definition pt (a b c : Z) : Vector3f := mkV (Z2Qc a) (Z2Qc b) (Z2Qc c).

Definition sample_rrt_config (iterations : nat) : RrtConfig :=
  mkRrtConfig (mkPoint 0 0 0) (mkPoint 1 0 0) iterations 1 0 0 1.

Definition sample_find_path_request : RrtFindPath_Request :=
  mkFindPathRequest (sample_rrt_config 1).

Definition sample_nbv_request (threshold : Z) : NBV_Request :=
  mkNBVRequest (sample_rrt_config 3)
               (mkNBVConfig 0 0 0 1 (Z2Qc threshold))
               (mkFoVMsg (Z2Qc 90) (Z2Qc 60) 0 0 (Z2Qc 10)).

Definition empty_nbv_response : NBV_Response := mkNBVResponse [] false.

(** Three iterations that each add a node: scores 5, 9 and 9 under
    [sample_gain]. *)
Definition sample_script : list (option (nat * Vector3f)) :=
  [Some (0%nat, pt 5 0 0); Some (1%nat, pt 9 0 0); Some (2%nat, pt 9 1 0)].

(* ------------------------------------------------------------------------- *)
(** *** Facts about the conversion of waypoints *)

Lemma waypoints_conversion_length (wps : Waypoints) :
  length (waypoints_to_geometry_msgs_points wps) = (2 * length wps)%nat.
Proof.
  unfold waypoints_to_geometry_msgs_points.
  rewrite length_app, repeat_length, length_map. lia.
Qed.

Lemma waypoints_conversion_last (wps : Waypoints) :
  wps <> [] ->
  last (waypoints_to_geometry_msgs_points wps) Point_default
  = to_geo_pt (last wps vzero).
Proof.
  intros Hne. unfold waypoints_to_geometry_msgs_points.
  rewrite (app_removelast_last vzero Hne) at 2.
  rewrite map_app, app_assoc. cbn [map]. apply last_last.
Qed.

Lemma convert_to_geo_pt (v : Vector3f) : convert (to_geo_pt v) = v.
Proof. destruct v. reflexivity. Qed.

Lemma waypoints_conversion_round_trip_aux (wps : Waypoints) :
  map convert (skipn (length wps) (waypoints_to_geometry_msgs_points wps)) = wps.
Proof.
  unfold waypoints_to_geometry_msgs_points.
  rewrite skipn_app, repeat_length, Nat.sub_diag.
  rewrite <- (repeat_length Point_default (length wps)) at 1.
  rewrite skipn_all. cbn [app skipn].
  rewrite map_map. rewrite <- (map_id wps) at 2.
  apply map_ext. exact convert_to_geo_pt.
Qed.

Lemma waypoints_conversion_last_coordinates (wps : Waypoints) :
  wps <> [] ->
  convert (last (waypoints_to_geometry_msgs_points wps) Point_default)
  = last wps vzero.
Proof.
  intros Hne. rewrite waypoints_conversion_last by exact Hne.
  apply convert_to_geo_pt.
Qed.

(* ------------------------------------------------------------------------- *)
(** *** Facts about the growth loop *)

Section LoopFacts.

Context {RRT Octomap : Type}.
Context {rrt_ops : RRTInterface RRT Octomap}.
Context {gain_ops : GainInterface Octomap}.

Variable request : NBV_Request.

Lemma grow_n_S k (rrt : RRT) : grow_n (S k) rrt = fst (grow1 (grow_n k rrt)).
Proof.
  revert rrt. induction k as [|k IH]; intros rrt; [reflexivity|].
  change (grow_n (S (S k)) rrt) with (grow_n (S k) (fst (grow1 rrt))).
  rewrite IH. reflexivity.
Qed.

(** With a map, the listener does the bookkeeping of [track] and then sets
    the flag when the score is at least the (gain_of_interest_threshold (nbv_config request)). *)
Lemma listener_track octomap locals parent new_point :
  on_new_node_created request (Some octomap) locals parent new_point
  = Returned
      (let locals1 := track request octomap locals (Some (parent, new_point)) in
       if Qcleb (gain_of_interest_threshold (nbv_config request)) (gain_of_new_point request octomap new_point)
       then mkLocals (best_gain locals1) (best_point locals1) true
       else locals1).
Proof.
  unfold on_new_node_created, track. cbn [pose_position fov_of_new_point].
  reflexivity.
Qed.

Lemma track_found octomap locals event :
  found_suitable_nbv (track request octomap locals event)
  = found_suitable_nbv locals.
Proof.
  unfold track. destruct event as [[parent p]|]; [|reflexivity].
  destruct (exceeds_best _ _); reflexivity.
Qed.

(** As long as every created node scores below the (gain_of_interest_threshold (nbv_config request)) the loop keeps
    going: [k] iterations make [k] calls of [grow1] and only move the
    best-gain bookkeeping. *)
Lemma nbv_loop_prefix octomap k rest :
  forall (rrt : RRT) locals response calls,
    found_suitable_nbv locals = false ->
    Forall (scores_below request octomap (gain_of_interest_threshold (nbv_config request))) (events k rrt) ->
    nbv_loop request (Some octomap) (k + rest) rrt locals response calls
    = nbv_loop request (Some octomap) rest (grow_n k rrt)
               (track_best request octomap (events k rrt) locals)
               response (calls + k).
Proof.
  induction k as [|k IH]; intros rrt locals response calls Hfound Hall.
  - cbn. rewrite Nat.add_0_r. reflexivity.
  - cbn [events] in Hall. inversion Hall as [|ev evs Hev Hevs]; subst.
    cbn [Nat.add nbv_loop events grow_n track_best fold_left].
    unfold grow1_with_listener.
    destruct (grow1 rrt) as [rrt' event] eqn:Eg.
    cbn [fst snd] in *.
    assert (Hstep :
      match event with
      | Some (parent, new_point) =>
          match on_new_node_created request (Some octomap) locals parent new_point with
          | Returned locals' => Returned (rrt', locals')
          | NullDereference => NullDereference
          end
      | None => Returned (rrt', locals)
      end = Returned (rrt', track request octomap locals event)).
    { destruct event as [[parent p]|]; [|reflexivity].
      rewrite listener_track. cbn zeta.
      unfold scores_below, event_gain in Hev.
      apply Qcleb_false_lt in Hev. rewrite Hev. reflexivity. }
    destruct event as [[parent p]|].
    + rewrite Hstep. rewrite track_found, Hfound.
      replace (calls + S k)%nat with (S calls + k)%nat by lia.
      apply IH; [rewrite track_found; exact Hfound | exact Hevs].
    + rewrite Hfound.
      replace (calls + S k)%nat with (S calls + k)%nat by lia.
      apply IH; [exact Hfound | exact Hevs].
Qed.

(** Without any node-created event the loop runs its full count whatever
    the map pointer is. *)
Lemma nbv_loop_no_events octomap_ptr n :
  forall (rrt : RRT) locals response calls,
    found_suitable_nbv locals = false ->
    Forall (fun event => event = None) (events n rrt) ->
    nbv_loop request octomap_ptr n rrt locals response calls
    = Returned (grow_n n rrt, locals, mkResult false response (calls + n)).
Proof.
  induction n as [|n IH]; intros rrt locals response calls Hfound Hall.
  - cbn. rewrite Nat.add_0_r. reflexivity.
  - cbn [events] in Hall. inversion Hall as [|ev evs Hev Hevs]; subst.
    cbn [nbv_loop grow_n]. unfold grow1_with_listener.
    destruct (grow1 rrt) as [rrt' event] eqn:Eg.
    cbn [fst snd] in *. subst event. rewrite Hfound.
    replace (calls + S n)%nat with (S calls + n)%nat by lia.
    apply IH; assumption.
Qed.

(** *** The best-gain bookkeeping picks the first node of highest score *)

Definition best_below (bound : Qc) (locals : nbv_locals) : Prop :=
  match best_gain locals with
  | None => True
  | Some g => g < bound
  end.

Lemma track_keeps_below octomap bound locals event :
  best_below bound locals ->
  scores_below request octomap bound event ->
  best_below bound (track request octomap locals event).
Proof.
  unfold best_below, scores_below, event_gain, track.
  destruct event as [[parent p]|]; [|auto].
  intros Hb Hs. destruct (exceeds_best _ _); cbn; assumption.
Qed.

Lemma track_best_keeps_below octomap bound evs :
  forall locals,
    best_below bound locals ->
    Forall (scores_below request octomap bound) evs ->
    best_below bound (track_best request octomap evs locals).
Proof.
  induction evs as [|ev evs IH]; intros locals Hb Hall; cbn; [exact Hb|].
  inversion Hall; subst.
  apply IH; [apply track_keeps_below|]; assumption.
Qed.

Lemma track_new_best octomap locals parent new_point :
  best_below (gain_of_new_point request octomap new_point) locals ->
  track request octomap locals (Some (parent, new_point))
  = mkLocals (Some (gain_of_new_point request octomap new_point)) new_point
             (found_suitable_nbv locals).
Proof.
  unfold best_below, track, exceeds_best.
  destruct (best_gain locals) as [b|]; [|reflexivity].
  intros Hb. apply Qcltb_lt in Hb. rewrite Hb. reflexivity.
Qed.

Lemma track_best_at_most octomap b evs :
  forall locals,
    best_gain locals = Some b ->
    Forall (scores_at_most request octomap b) evs ->
    track_best request octomap evs locals = locals.
Proof.
  induction evs as [|ev evs IH]; intros locals Hb Hall; cbn; [reflexivity|].
  inversion Hall as [|e es He Hes]; subst.
  assert (Ht : track request octomap locals ev = locals).
  { unfold track. destruct ev as [[parent p]|]; [|reflexivity].
    unfold scores_at_most, event_gain in He.
    unfold exceeds_best. rewrite Hb.
    apply Qcltb_false_le in He. rewrite He. reflexivity. }
  rewrite Ht. apply IH; assumption.
Qed.

(** If the events split at a node that scores strictly above everything
    before it and at least as high as everything after it, that node is
    where [best_point] ends up. *)
Lemma track_best_first_maximum octomap before parent best after :
  Forall (scores_below request octomap (gain_of_new_point request octomap best)) before ->
  Forall (scores_at_most request octomap (gain_of_new_point request octomap best)) after ->
  best_point (track_best request octomap
                         (before ++ Some (parent, best) :: after) initial_locals)
  = best.
Proof.
  intros Hbefore Hafter. unfold track_best.
  rewrite fold_left_app. cbn [fold_left].
  rewrite track_new_best.
  - fold (track_best request octomap after
            (mkLocals (Some (gain_of_new_point request octomap best)) best
               (found_suitable_nbv
                  (fold_left (track request octomap) before initial_locals)))).
    rewrite track_best_at_most with (b := gain_of_new_point request octomap best);
      [reflexivity | reflexivity | exact Hafter].
  - apply track_best_keeps_below; [exact I | exact Hbefore].
Qed.

End LoopFacts.

(* ------------------------------------------------------------------------- *)
(** *** The claims about the handlers *)

(** C10.  [waypoints_to_geometry_msgs_points] returns twice as many points
    as it is given: first one value-initialised point (0,0,0) per waypoint,
    then the converted waypoints.  The single waypoint (1,2,3) comes back
    as (0,0,0), (1,2,3). *)
Theorem waypoints_conversion_prepends_defaults (wps : Waypoints) :
  length (waypoints_to_geometry_msgs_points wps) = (2 * length wps)%nat
  /\ firstn (length wps) (waypoints_to_geometry_msgs_points wps)
     = repeat Point_default (length wps)
  /\ skipn (length wps) (waypoints_to_geometry_msgs_points wps)
     = map to_geo_pt wps
  /\ waypoints_to_geometry_msgs_points [pt 1 2 3]
     = [Point_default; to_geo_pt (pt 1 2 3)].
Proof.
  split; [apply waypoints_conversion_length|].
  unfold waypoints_to_geometry_msgs_points.
  split; [|split].
  - rewrite firstn_app, repeat_length, Nat.sub_diag, firstn_O, app_nil_r.
    rewrite <- (repeat_length Point_default (length wps)) at 1.
    apply firstn_all.
  - rewrite skipn_app, repeat_length, Nat.sub_diag.
    rewrite <- (repeat_length Point_default (length wps)) at 1.
    rewrite skipn_all. reflexivity.
  - reflexivity.
Qed.

Section HandlerClaims.

Context {RRT Octomap : Type}.
Context {rrt_ops : RRTInterface RRT Octomap}.
Context {gain_ops : GainInterface Octomap}.

(** C5, as amended.  When the map fetch returned a null pointer neither
    handler aborts: both skip [assign_octomap] and drive the tree as usual.
    The path-planning handler returns what [run()] yields on that tree:
    true and the path, which can be read back from the response, or false
    and the response as it came in.  The NBV handler, as long as no node is
    created, makes all its [max_iterations] calls of [grow1], returns false
    and runs its fallback: it asks the tree for the waypoints to the node
    nearest to (0,0,0), the initial [best_point], and fills the response
    from them, or leaves it as it came in when the tree has none. *)
Theorem handlers_run_without_map
        (find_request : RrtFindPath_Request) (find_response : RrtFindPath_Response)
        (nbv_request : NBV_Request) (nbv_response : NBV_Response) :
  Forall (fun event => event = None)
         (events (max_iterations (nbv_rrt_config nbv_request)) (nbv_tree nbv_request)) ->
  match run (find_path_tree find_request) with
  | Some path =>
      rrt_find_path_handler find_request None find_response
      = (true, mkFindPathResponse (waypoints_to_geometry_msgs_points path))
      /\ map convert
             (skipn (length path)
                    (waypoints
                       (snd (rrt_find_path_handler find_request None find_response))))
         = path
  | None =>
      rrt_find_path_handler find_request None find_response = (false, find_response)
  end
  /\ nbv_handler nbv_request None nbv_response
     = Returned
         (match get_waypoints_from_nearsest_node_to
                  (mkV 0 0 0)
                  (grow_n (max_iterations (nbv_rrt_config nbv_request))
                          (nbv_tree nbv_request)) with
          | Some path =>
              mkResult false
                       (mkNBVResponse (waypoints_to_geometry_msgs_points path) false)
                       (max_iterations (nbv_rrt_config nbv_request))
          | None =>
              mkResult false nbv_response
                       (max_iterations (nbv_rrt_config nbv_request))
          end).
Proof.
  intros Hnone. split.
  - unfold rrt_find_path_handler. cbn [assign_if_present].
    destruct (run (find_path_tree find_request)) as [path|]; [|reflexivity].
    split; [reflexivity|]. cbn [snd waypoints].
    apply waypoints_conversion_round_trip_aux.
  - unfold nbv_handler. cbn [assign_if_present].
    rewrite nbv_loop_no_events by (reflexivity || exact Hnone).
    unfold nbv_fallback.
    cbn [success best_point initial_locals grow1_calls Nat.add].
    destruct (get_waypoints_from_nearsest_node_to _ _); reflexivity.
Qed.

(** With a null map the first node that is created ends the NBV handler in
    the listener's dereference of the pointer. *)
Lemma nbv_null_map_new_node (request : NBV_Request) (response : NBV_Response)
      n (event : Vector3f * Vector3f) :
  max_iterations (nbv_rrt_config request) = S n ->
  snd (grow1 (nbv_tree request)) = Some event ->
  nbv_handler request None response = NullDereference.
Proof.
  intros Hmax Hev. unfold nbv_handler. cbn [assign_if_present].
  rewrite Hmax. cbn [nbv_loop]. unfold grow1_with_listener.
  destruct (grow1 (nbv_tree request)) as [rrt' ev]. cbn [snd] in Hev.
  subst ev. destruct event as [parent p]. reflexivity.
Qed.

(** C6, as amended.  With a map, growth stops at the first iteration whose
    new node scores at least the threshold (greater or equal): if the first
    [k] calls of [grow1] create only nodes scoring below the threshold and
    call [k+1] creates a node scoring at least the threshold, the handler
    has made exactly [k+1] calls, returns true, sets
    [found_nbv_with_sufficent_gain] and fills the waypoints from the
    backtrack from the newest node through
    [waypoints_to_geometry_msgs_points]. *)
Theorem nbv_stops_at_first_sufficient_gain
        (request : NBV_Request) (octomap : Octomap) (response : NBV_Response)
        (k : nat) (parent new_point : Vector3f) (path : Waypoints) :
  (k < max_iterations (nbv_rrt_config request))%nat ->
  Forall (scores_below request octomap (gain_of_interest_threshold (nbv_config request)))
         (events k (assign_octomap octomap (nbv_tree request))) ->
  snd (grow1 (grow_n k (assign_octomap octomap (nbv_tree request))))
  = Some (parent, new_point) ->
  gain_of_interest_threshold (nbv_config request)
  <= gain_of_new_point request octomap new_point ->
  waypoints_from_newest_node (grow_n (S k) (assign_octomap octomap (nbv_tree request)))
  = Some path ->
  nbv_handler request (Some octomap) response
  = Returned (mkResult true
                       (mkNBVResponse (waypoints_to_geometry_msgs_points path) true)
                       (S k)).
Proof.
  intros Hk Hbelow Hev Hgain Hpath.
  unfold nbv_handler. cbn [assign_if_present].
  replace (max_iterations (nbv_rrt_config request))
    with (k + S (max_iterations (nbv_rrt_config request) - S k))%nat by lia.
  rewrite nbv_loop_prefix by (reflexivity || exact Hbelow).
  cbn [nbv_loop]. unfold grow1_with_listener.
  rewrite grow_n_S in Hpath.
  destruct (grow1 (grow_n k (assign_octomap octomap (nbv_tree request))))
    as [rrt' event].
  cbn [fst snd] in *. subst event.
  rewrite listener_track. cbn zeta.
  apply Qcleb_le in Hgain. rewrite Hgain.
  cbn [found_suitable_nbv]. rewrite Hpath.
  reflexivity.
Qed.

(** C7.  The threshold lies above the score of every node created during
    the [max_iterations] calls of [grow1] (a node has a score only when the
    listener has a map to evaluate it on, so the map pointer is not null).
    Then the handler makes all [max_iterations] calls and returns false;
    it asks the tree for the waypoints to the position of the first node
    of highest score (the node scores strictly above every earlier node
    and at least as high as every later one); when the tree yields them the
    response holds the flag false and waypoints from which that path reads
    back coordinate for coordinate, the last one being the node the path
    ends at; when the tree yields none the response is untouched. *)
Theorem nbv_falls_back_to_best_node
        (request : NBV_Request) (octomap : Octomap) (response : NBV_Response)
        (before after : list (option (Vector3f * Vector3f)))
        (parent best : Vector3f) :
  Forall (scores_below request octomap (gain_of_interest_threshold (nbv_config request)))
         (events (max_iterations (nbv_rrt_config request))
                 (assign_octomap octomap (nbv_tree request))) ->
  events (max_iterations (nbv_rrt_config request))
         (assign_octomap octomap (nbv_tree request))
  = before ++ Some (parent, best) :: after ->
  Forall (scores_below request octomap (gain_of_new_point request octomap best)) before ->
  Forall (scores_at_most request octomap (gain_of_new_point request octomap best)) after ->
  nbv_handler request (Some octomap) response
  = Returned
      (mkResult false
                (match get_waypoints_from_nearsest_node_to
                         best
                         (grow_n (max_iterations (nbv_rrt_config request))
                                 (assign_octomap octomap (nbv_tree request))) with
                 | Some path =>
                     mkNBVResponse (waypoints_to_geometry_msgs_points path) false
                 | None => response
                 end)
                (max_iterations (nbv_rrt_config request)))
  /\ forall path,
      get_waypoints_from_nearsest_node_to
        best
        (grow_n (max_iterations (nbv_rrt_config request))
                (assign_octomap octomap (nbv_tree request)))
      = Some path ->
      exists r,
        nbv_handler request (Some octomap) response = Returned r
        /\ success r = false
        /\ grow1_calls r = max_iterations (nbv_rrt_config request)
        /\ found_nbv_with_sufficent_gain (RrtService.response r) = false
        /\ map convert (skipn (length path) (nbv_waypoints (RrtService.response r)))
           = path
        /\ (path <> [] ->
            convert (last (nbv_waypoints (RrtService.response r)) Point_default)
            = last path vzero).
Proof.
  intros Hbelow Hsplit Hbefore Hafter.
  assert (Hrun :
    nbv_handler request (Some octomap) response
    = Returned
        (mkResult false
           (match get_waypoints_from_nearsest_node_to
                    best
                    (grow_n (max_iterations (nbv_rrt_config request))
                            (assign_octomap octomap (nbv_tree request))) with
            | Some path =>
                mkNBVResponse (waypoints_to_geometry_msgs_points path) false
            | None => response
            end)
           (max_iterations (nbv_rrt_config request)))).
  { unfold nbv_handler. cbn [assign_if_present].
    pose proof (@nbv_loop_prefix _ _ _ _ request octomap
                  (max_iterations (nbv_rrt_config request)) 0
                  (assign_octomap octomap (nbv_tree request))
                  initial_locals response 0%nat eq_refl Hbelow) as Hloop.
    rewrite Nat.add_0_r in Hloop. rewrite Hloop.
    cbn [nbv_loop]. unfold nbv_fallback. cbn [success grow1_calls Nat.add].
    rewrite Hsplit, track_best_first_maximum by assumption.
    destruct (get_waypoints_from_nearsest_node_to best _); reflexivity. }
  split; [exact Hrun|].
  intros path Hpath. rewrite Hpath in Hrun.
  eexists. split; [exact Hrun|].
  cbn [success grow1_calls RrtService.response nbv_waypoints
       found_nbv_with_sufficent_gain].
  do 3 (split; [reflexivity|]).
  split; [apply waypoints_conversion_round_trip_aux|].
  apply waypoints_conversion_last_coordinates.
Qed.

End HandlerClaims.

(* ------------------------------------------------------------------------- *)
(** *** The handlers on concrete requests *)

Ltac decide_score :=
  vm_compute; first [exact I | reflexivity | (let H := fresh in intro H; discriminate H)].

Ltac decide_scores :=
  cbn [events];
  repeat first [apply Forall_nil | apply Forall_cons; [decide_score|]].

(** C5, counterexample.  The map pointer is null.  The path-planning handler
    still runs the planner, reports success and returns waypoints; the NBV
    handler still makes its three calls of [grow1]. *)
Lemma null_map_does_not_abort :
  rrt_find_path_handler (rrt_ops := scripted [Some (0%nat, pt 1 0 0)])
                        sample_find_path_request None (mkFindPathResponse [])
  = (true, mkFindPathResponse (waypoints_to_geometry_msgs_points [pt 0 0 0; pt 1 0 0]))
  /\ nbv_handler (rrt_ops := scripted [None; None; None]) (gain_ops := sample_gain)
                 (sample_nbv_request 100) None empty_nbv_response
     = Returned (mkResult false
                          (mkNBVResponse (waypoints_to_geometry_msgs_points [pt 0 0 0]) false)
                          3).
Proof.
  split; vm_compute; reflexivity.
Qed.

(** C5, witness: three iterations that create no node; the fallback goes to
    the root, the node nearest to (0,0,0). *)
Lemma handlers_run_without_map_witness :
  nbv_handler (rrt_ops := scripted [None; None; None]) (gain_ops := sample_gain)
              (sample_nbv_request 100) None empty_nbv_response
  = Returned (mkResult false
                       (mkNBVResponse (waypoints_to_geometry_msgs_points [pt 0 0 0]) false)
                       3).
Proof.
  refine (proj2 (@handlers_run_without_map
                   _ _ (scripted [None; None; None]) sample_gain
                   sample_find_path_request (mkFindPathResponse [])
                   (sample_nbv_request 100) empty_nbv_response _)).
  cbn [events]. repeat first [apply Forall_nil | apply Forall_cons; [reflexivity|]].
Defined.

(** C6, counterexample.  The threshold is 5 and the first node scores
    exactly 5, which does not exceed the threshold; the handler stops after
    that single call of [grow1] although two iterations remain. *)
Lemma nbv_stops_at_equal_score :
  nbv_handler (rrt_ops := scripted sample_script) (gain_ops := sample_gain)
              (sample_nbv_request 5) (Some tt) empty_nbv_response
  = Returned (mkResult true
                       (mkNBVResponse
                          (waypoints_to_geometry_msgs_points [pt 0 0 0; pt 5 0 0]) true)
                       1)
  /\ Qcltb (gain_of_interest_threshold (nbv_config (sample_nbv_request 5)))
           (gain_of_new_point (gain_ops := sample_gain) (sample_nbv_request 5) tt (pt 5 0 0))
     = false
  /\ max_iterations (nbv_rrt_config (sample_nbv_request 5)) = 3%nat.
Proof.
  split; [|split]; vm_compute; reflexivity.
Qed.

(** C6, witness: threshold 6; the first node scores 5, the second 9. *)
Lemma nbv_stops_at_first_sufficient_gain_witness :
  nbv_handler (rrt_ops := scripted sample_script) (gain_ops := sample_gain)
              (sample_nbv_request 6) (Some tt) empty_nbv_response
  = Returned (mkResult true
                       (mkNBVResponse
                          (waypoints_to_geometry_msgs_points
                             [pt 0 0 0; pt 5 0 0; pt 9 0 0]) true)
                       2).
Proof.
  apply (@nbv_stops_at_first_sufficient_gain
           _ _ (scripted sample_script) sample_gain
           (sample_nbv_request 6) tt empty_nbv_response
           1 (pt 5 0 0) (pt 9 0 0) [pt 0 0 0; pt 5 0 0; pt 9 0 0]).
  - vm_compute. repeat constructor.
  - decide_scores.
  - vm_compute. reflexivity.
  - decide_score.
  - vm_compute. reflexivity.
Defined.

(** C7, witness: threshold 100; the nodes score 5, 9 and 9, and the
    fallback goes to the first node that scores 9. *)
Lemma nbv_falls_back_to_best_node_witness :
  nbv_handler (rrt_ops := scripted sample_script) (gain_ops := sample_gain)
              (sample_nbv_request 100) (Some tt) empty_nbv_response
  = Returned
      (mkResult false
                (mkNBVResponse
                   (waypoints_to_geometry_msgs_points [pt 0 0 0; pt 5 0 0; pt 9 0 0])
                   false)
                3)
  /\ convert (last (waypoints_to_geometry_msgs_points [pt 0 0 0; pt 5 0 0; pt 9 0 0])
                   Point_default)
     = pt 9 0 0.
Proof.
  assert (H := @nbv_falls_back_to_best_node
                 _ _ (scripted sample_script) sample_gain
                 (sample_nbv_request 100) tt empty_nbv_response
                 [Some (pt 0 0 0, pt 5 0 0)] [Some (pt 9 0 0, pt 9 1 0)]
                 (pt 5 0 0) (pt 9 0 0)).
  destruct H as [Hrun Hpath].
  - decide_scores.
  - vm_compute. reflexivity.
  - decide_scores.
  - decide_scores.
  - split; [exact Hrun|].
    destruct (Hpath [pt 0 0 0; pt 5 0 0; pt 9 0 0]) as [r [Hr [_ [_ [_ [_ Hlast]]]]]].
    + vm_compute. reflexivity.
    + rewrite Hrun in Hr. injection Hr as <-.
      apply Hlast. discriminate.
Defined.

(* ------------------------------------------------------------------------- *)
(** *** Further properties of the handlers *)

(** X10.  The waypoints can be read back from the output of
    [waypoints_to_geometry_msgs_points]: dropping the leading
    [wps.size()] points and converting the rest back gives the input. *)
Theorem waypoints_conversion_round_trip (wps : Waypoints) :
  map convert (skipn (length wps) (waypoints_to_geometry_msgs_points wps)) = wps
  /\ length (waypoints_to_geometry_msgs_points wps) = (length wps + length wps)%nat.
Proof.
  split; [apply waypoints_conversion_round_trip_aux|].
  rewrite waypoints_conversion_length. lia.
Qed.

Section HandlerExtras.

Context {RRT Octomap : Type}.
Context {rrt_ops : RRTInterface RRT Octomap}.
Context {gain_ops : GainInterface Octomap}.

Variable request : NBV_Request.

(** What the loop guarantees about its result, whatever the planner and the
    map pointer: the counter grows by at most the number of iterations, and
    the flag of the response is the success flag (or the response is still
    the incoming one). *)
Lemma nbv_loop_result octomap_ptr n :
  forall (rrt : RRT) locals response calls rrt' locals' r,
    nbv_loop request octomap_ptr n rrt locals response calls
    = Returned (rrt', locals', r) ->
    (calls <= grow1_calls r <= calls + n)%nat
    /\ (success r = true ->
        found_nbv_with_sufficent_gain (RrtService.response r) = true)
    /\ (success r = false ->
        found_nbv_with_sufficent_gain (RrtService.response r) = false
        \/ RrtService.response r = response).
Proof.
  induction n as [|n IH]; intros rrt locals response calls rrt' locals' r H;
    cbn [nbv_loop] in H.
  - injection H as <- <- <-. cbn. split; [lia|]. split; [discriminate|].
    intros _. right. reflexivity.
  - destruct (grow1_with_listener request octomap_ptr rrt locals)
      as [[rrt1 locals1]|]; [|discriminate].
    destruct (found_suitable_nbv locals1).
    + destruct (waypoints_from_newest_node rrt1) as [path|];
        injection H as <- <- <-; cbn; (split; [lia|]); split;
        try discriminate; try reflexivity; intros _; left; reflexivity.
    + apply IH in H. destruct H as [Hc Hrest]. split; [lia | exact Hrest].
Qed.

Lemma nbv_fallback_calls (rrt : RRT) locals r :
  grow1_calls (nbv_fallback rrt locals r) = grow1_calls r.
Proof.
  unfold nbv_fallback. destruct (success r); [reflexivity|].
  destruct (get_waypoints_from_nearsest_node_to _ _); reflexivity.
Qed.

(** X11.  Whatever the planner and the map pointer, a returning
    [nbv_handler] has called [grow1] at most [max_iterations] times. *)
Theorem nbv_handler_calls_within_budget
        (octomap_ptr : option Octomap) (response : NBV_Response) (r : nbv_result) :
  nbv_handler request octomap_ptr response = Returned r ->
  (grow1_calls r <= max_iterations (nbv_rrt_config request))%nat.
Proof.
  unfold nbv_handler.
  destruct (nbv_loop _ _ _ _ _ _ _) as [[[rrt' locals'] r']|] eqn:E;
    [|discriminate].
  intros H. injection H as <-.
  rewrite nbv_fallback_calls.
  apply nbv_loop_result in E. lia.
Qed.

(** X12.  When the incoming response has its flag unset, the flag
    [found_nbv_with_sufficent_gain] of the response left by a returning
    [nbv_handler] equals the value the handler returns. *)
Theorem nbv_flag_equals_success
        (octomap_ptr : option Octomap) (response : NBV_Response) (r : nbv_result) :
  found_nbv_with_sufficent_gain response = false ->
  nbv_handler request octomap_ptr response = Returned r ->
  found_nbv_with_sufficent_gain (RrtService.response r) = success r.
Proof.
  intros Hresp. unfold nbv_handler.
  destruct (nbv_loop _ _ _ _ _ _ _) as [[[rrt' locals'] r']|] eqn:E;
    [|discriminate].
  intros H. injection H as <-.
  apply nbv_loop_result in E. destruct E as [_ [Htrue Hfalse]].
  unfold nbv_fallback. destruct (success r') eqn:Es.
  - rewrite Es. apply Htrue. reflexivity.
  - destruct (get_waypoints_from_nearsest_node_to _ _); cbn; [reflexivity|].
    rewrite Es. destruct (Hfalse eq_refl) as [H | H]; [exact H|].
    rewrite H. exact Hresp.
Qed.

(** A list of events holds no node creation, or it holds one. *)
Lemma events_none_or_some (evs : list (option (Vector3f * Vector3f))) :
  Forall (fun event => event = None) evs
  \/ Exists (fun event => event <> None) evs.
Proof.
  induction evs as [|ev evs IH]; [left; constructor|].
  destruct ev as [e|].
  - right. apply Exists_cons_hd. discriminate.
  - destruct IH as [IH | IH].
    + left. constructor; [reflexivity | exact IH].
    + right. apply Exists_cons_tl. exact IH.
Qed.

Lemma nbv_loop_null_map n :
  forall (rrt : RRT) locals response calls,
    found_suitable_nbv locals = false ->
    Exists (fun event => event <> None) (events n rrt) ->
    nbv_loop request None n rrt locals response calls = NullDereference.
Proof.
  induction n as [|n IH]; intros rrt locals response calls Hfound Hex;
    cbn [events] in Hex.
  - inversion Hex.
  - cbn [nbv_loop]. unfold grow1_with_listener.
    destruct (grow1 rrt) as [rrt' event]. cbn [fst snd] in Hex.
    destruct event as [[parent p]|]; [reflexivity|].
    rewrite Hfound. apply IH; [exact Hfound|].
    inversion Hex as [? ? Hhd | ? ? Htl]; subst; [congruence | exact Htl].
Qed.

(** X13.  With a null map pointer [nbv_handler] ends in the listener's
    dereference of that pointer exactly when one of its [max_iterations]
    calls of [grow1] creates a node. *)
Theorem nbv_null_map_dereferenced_iff (response : NBV_Response) :
  nbv_handler request None response = NullDereference
  <-> Exists (fun event => event <> None)
             (events (max_iterations (nbv_rrt_config request)) (nbv_tree request)).
Proof.
  unfold nbv_handler. cbn [assign_if_present]. split.
  - intros H.
    destruct (events_none_or_some
                (events (max_iterations (nbv_rrt_config request)) (nbv_tree request)))
      as [Hnone | Hsome]; [|exact Hsome].
    rewrite nbv_loop_no_events in H by (reflexivity || exact Hnone).
    discriminate H.
  - intros Hex. rewrite nbv_loop_null_map by (reflexivity || exact Hex).
    reflexivity.
Qed.

(** X14.  When none of the [max_iterations] calls of [grow1] creates a
    node, with or without a map, [nbv_handler] returns false after all
    these calls and asks the tree for the waypoints to the node nearest to
    (0,0,0), the initial value of [best_point]; if the tree has none the
    response stays as it came in. *)
Theorem nbv_without_nodes_falls_back_to_origin
        (octomap_ptr : option Octomap) (response : NBV_Response) :
  Forall (fun event => event = None)
         (events (max_iterations (nbv_rrt_config request))
                 (assign_if_present octomap_ptr (nbv_tree request))) ->
  nbv_handler request octomap_ptr response
  = Returned
      (match get_waypoints_from_nearsest_node_to
               (mkV 0 0 0)
               (grow_n (max_iterations (nbv_rrt_config request))
                       (assign_if_present octomap_ptr (nbv_tree request))) with
       | Some path =>
           mkResult false
                    (mkNBVResponse (waypoints_to_geometry_msgs_points path) false)
                    (max_iterations (nbv_rrt_config request))
       | None =>
           mkResult false response (max_iterations (nbv_rrt_config request))
       end).
Proof.
  intros Hnone. unfold nbv_handler.
  rewrite nbv_loop_no_events by (reflexivity || exact Hnone).
  unfold nbv_fallback. cbn [success best_point initial_locals grow1_calls Nat.add].
  destruct (get_waypoints_from_nearsest_node_to _ _); reflexivity.
Qed.

(** X15.  Whatever the planner and the map pointer,
    [rrt_find_path_handler] returns true exactly when [run()] yields a
    path; the path can then be read back from the second half of the
    response waypoints.  When [run()] yields none the response is left as
    it came in. *)
Theorem find_path_handler_outcome
        (find_request : RrtFindPath_Request) (octomap_ptr : option Octomap)
        (find_response : RrtFindPath_Response) :
  match run (assign_if_present octomap_ptr (find_path_tree find_request)) with
  | Some path =>
      fst (rrt_find_path_handler find_request octomap_ptr find_response) = true
      /\ map convert
             (skipn (length path)
                    (waypoints
                       (snd (rrt_find_path_handler find_request octomap_ptr
                                                   find_response))))
         = path
  | None =>
      rrt_find_path_handler find_request octomap_ptr find_response
      = (false, find_response)
  end.
Proof.
  unfold rrt_find_path_handler.
  destruct (run _) as [path|]; [|reflexivity].
  cbn [fst snd waypoints]. split; [reflexivity|].
  apply waypoints_conversion_round_trip_aux.
Qed.

(** A loop that ends with success stopped at the first call of [grow1]
    whose node scores at least the threshold. *)
Lemma nbv_loop_success octomap n :
  forall (rrt : RRT) locals response calls rrt' locals' r,
    found_suitable_nbv locals = false ->
    nbv_loop request (Some octomap) n rrt locals response calls
    = Returned (rrt', locals', r) ->
    success r = true ->
    exists k parent new_point path,
      (k < n)%nat
      /\ Forall (scores_below request octomap
                              (gain_of_interest_threshold (nbv_config request)))
                (events k rrt)
      /\ snd (grow1 (grow_n k rrt)) = Some (parent, new_point)
      /\ gain_of_interest_threshold (nbv_config request)
         <= gain_of_new_point request octomap new_point
      /\ waypoints_from_newest_node (grow_n (S k) rrt) = Some path
      /\ r = mkResult true
                      (mkNBVResponse (waypoints_to_geometry_msgs_points path) true)
                      (calls + S k).
Proof.
  induction n as [|n IH];
    intros rrt locals response calls rrt' locals' r Hfound H Hs;
    cbn [nbv_loop] in H.
  - injection H as <- <- <-. discriminate Hs.
  - unfold grow1_with_listener in H.
    destruct (grow1 rrt) as [rrt1 event] eqn:Eg.
    destruct event as [[parent p]|].
    + rewrite listener_track in H. cbn zeta in H.
      destruct (Qcleb (gain_of_interest_threshold (nbv_config request))
                      (gain_of_new_point request octomap p)) eqn:Eth.
      * cbn [found_suitable_nbv] in H.
        destruct (waypoints_from_newest_node rrt1) as [path|] eqn:Ep;
          injection H as <- <- <-; [|discriminate Hs].
        exists 0%nat, parent, p, path.
        cbn [events grow_n]. rewrite Eg. cbn [fst snd].
        split; [lia|]. split; [constructor|]. split; [reflexivity|].
        split; [apply Qcleb_le; exact Eth|]. split; [exact Ep|].
        rewrite Nat.add_1_r. reflexivity.
      * rewrite track_found, Hfound in H.
        apply IH in H; [|rewrite track_found; exact Hfound | exact Hs].
        destruct H as [k [parent' [p' [path [Hk [Hall [Hev [Hg [Hp Hr]]]]]]]]].
        exists (S k), parent', p', path.
        cbn [events grow_n]. rewrite Eg. cbn [fst snd].
        split; [lia|]. split.
        { constructor; [|exact Hall].
          unfold scores_below, event_gain. apply Qcleb_false_lt. exact Eth. }
        split; [exact Hev|]. split; [exact Hg|]. split; [exact Hp|].
        rewrite Hr. f_equal. lia.
    + rewrite Hfound in H.
      apply IH in H; [|exact Hfound | exact Hs].
      destruct H as [k [parent' [p' [path [Hk [Hall [Hev [Hg [Hp Hr]]]]]]]]].
      exists (S k), parent', p', path.
      cbn [events grow_n]. rewrite Eg. cbn [fst snd].
      split; [lia|]. split; [constructor; [exact I | exact Hall]|].
      split; [exact Hev|]. split; [exact Hg|]. split; [exact Hp|].
      rewrite Hr. f_equal. lia.
Qed.

(** X17.  If [nbv_handler], with a map, returns true, it stopped at the
    first call of [grow1] whose node scores at least the threshold: every
    node created before scores below the threshold, the number of calls is
    the position of that call, and the response holds the flag and the
    backtrack from the newest node through
    [waypoints_to_geometry_msgs_points]. *)
Theorem nbv_success_means_first_sufficient_gain
        (octomap : Octomap) (response : NBV_Response) (r : nbv_result) :
  nbv_handler request (Some octomap) response = Returned r ->
  success r = true ->
  exists k parent new_point path,
    (k < max_iterations (nbv_rrt_config request))%nat
    /\ Forall (scores_below request octomap
                            (gain_of_interest_threshold (nbv_config request)))
              (events k (assign_octomap octomap (nbv_tree request)))
    /\ snd (grow1 (grow_n k (assign_octomap octomap (nbv_tree request))))
       = Some (parent, new_point)
    /\ gain_of_interest_threshold (nbv_config request)
       <= gain_of_new_point request octomap new_point
    /\ waypoints_from_newest_node
         (grow_n (S k) (assign_octomap octomap (nbv_tree request)))
       = Some path
    /\ r = mkResult true
                    (mkNBVResponse (waypoints_to_geometry_msgs_points path) true)
                    (S k).
Proof.
  unfold nbv_handler. cbn [assign_if_present].
  destruct (nbv_loop _ _ _ _ _ _ _) as [[[rrt' locals'] r']|] eqn:E;
    [|discriminate].
  intros H Hs. injection H as <-.
  unfold nbv_fallback in *.
  destruct (success r') eqn:Es.
  - apply nbv_loop_success in E; [|reflexivity | exact Es]. exact E.
  - destruct (get_waypoints_from_nearsest_node_to _ _); cbn in Hs; congruence.
Qed.

End HandlerExtras.

Lemma nbv_handler_calls_within_budget_witness :
  nbv_handler (rrt_ops := scripted sample_script) (gain_ops := sample_gain)
              (sample_nbv_request 6) (Some tt) empty_nbv_response
  = Returned (mkResult true
                       (mkNBVResponse
                          (waypoints_to_geometry_msgs_points
                             [pt 0 0 0; pt 5 0 0; pt 9 0 0]) true)
                       2)
  /\ (2 <= max_iterations (nbv_rrt_config (sample_nbv_request 6)))%nat.
Proof.
  split; [vm_compute; reflexivity|].
  apply (@nbv_handler_calls_within_budget
           _ _ (scripted sample_script) sample_gain
           (sample_nbv_request 6) (Some tt) empty_nbv_response
           (mkResult true
                     (mkNBVResponse
                        (waypoints_to_geometry_msgs_points
                           [pt 0 0 0; pt 5 0 0; pt 9 0 0]) true)
                     2)).
  vm_compute. reflexivity.
Defined.

Lemma nbv_flag_equals_success_witness :
  nbv_handler (rrt_ops := scripted sample_script) (gain_ops := sample_gain)
              (sample_nbv_request 100) (Some tt) empty_nbv_response
  = Returned (mkResult false
                       (mkNBVResponse
                          (waypoints_to_geometry_msgs_points
                             [pt 0 0 0; pt 5 0 0; pt 9 0 0]) false)
                       3)
  /\ found_nbv_with_sufficent_gain
       (mkNBVResponse
          (waypoints_to_geometry_msgs_points [pt 0 0 0; pt 5 0 0; pt 9 0 0]) false)
     = false.
Proof.
  split; [vm_compute; reflexivity|].
  apply (@nbv_flag_equals_success
           _ _ (scripted sample_script) sample_gain
           (sample_nbv_request 100) (Some tt) empty_nbv_response
           (mkResult false
                     (mkNBVResponse
                        (waypoints_to_geometry_msgs_points
                           [pt 0 0 0; pt 5 0 0; pt 9 0 0]) false)
                     3)).
  - reflexivity.
  - vm_compute. reflexivity.
Defined.

Lemma nbv_without_nodes_falls_back_to_origin_witness :
  nbv_handler (rrt_ops := scripted [None; None; None]) (gain_ops := sample_gain)
              (sample_nbv_request 100) (Some tt) empty_nbv_response
  = Returned (mkResult false
                       (mkNBVResponse (waypoints_to_geometry_msgs_points [pt 0 0 0]) false)
                       3).
Proof.
  apply (@nbv_without_nodes_falls_back_to_origin
           _ _ (scripted [None; None; None]) sample_gain
           (sample_nbv_request 100) (Some tt) empty_nbv_response).
  cbn [events]. repeat first [apply Forall_nil | apply Forall_cons; [reflexivity|]].
Defined.

Lemma nbv_success_means_first_sufficient_gain_witness :
  exists k parent new_point path,
    (k < max_iterations (nbv_rrt_config (sample_nbv_request 6)))%nat
    /\ Forall (scores_below (gain_ops := sample_gain) (sample_nbv_request 6) tt
                            (gain_of_interest_threshold
                               (nbv_config (sample_nbv_request 6))))
              (events (rrt_ops := scripted sample_script) k
                      (assign_octomap (RRTInterface := scripted sample_script) tt
                         (nbv_tree (rrt_ops := scripted sample_script)
                                   (sample_nbv_request 6))))
    /\ snd (grow1 (RRTInterface := scripted sample_script)
                  (grow_n (rrt_ops := scripted sample_script) k
                     (assign_octomap (RRTInterface := scripted sample_script) tt
                        (nbv_tree (rrt_ops := scripted sample_script)
                                  (sample_nbv_request 6)))))
       = Some (parent, new_point)
    /\ gain_of_interest_threshold (nbv_config (sample_nbv_request 6))
       <= gain_of_new_point (gain_ops := sample_gain) (sample_nbv_request 6) tt new_point
    /\ waypoints_from_newest_node (RRTInterface := scripted sample_script)
         (grow_n (rrt_ops := scripted sample_script) (S k)
            (assign_octomap (RRTInterface := scripted sample_script) tt
               (nbv_tree (rrt_ops := scripted sample_script)
                         (sample_nbv_request 6))))
       = Some path
    /\ mkResult true
                (mkNBVResponse
                   (waypoints_to_geometry_msgs_points [pt 0 0 0; pt 5 0 0; pt 9 0 0])
                   true)
                2
       = mkResult true
                  (mkNBVResponse (waypoints_to_geometry_msgs_points path) true)
                  (S k).
Proof.
  apply (@nbv_success_means_first_sufficient_gain
           _ _ (scripted sample_script) sample_gain
           (sample_nbv_request 6) tt empty_nbv_response).
  - vm_compute. reflexivity.
  - reflexivity.
Defined.

End RrtService.
